(** * mesacat: the evacuation model (src/mesacat/model.py)

    A shallow embedding of [EvacuationModel]: its constructor, [step] and
    [run].  The module is glue code around four libraries (Mesa, GeoPandas,
    OSMnx, SciPy); the parts of those libraries that the constructor and the
    step loop go through are written out below, each next to the call it
    models, and what they compute on numbers (geometric predicates, the
    nearest-neighbour search, the random generator) is kept behind
    interfaces.  The agent class lives in [mesacat/agent.py], which is a
    collaborator of this module: it is an interface as well. *)

From stdpp Require Import gmap strings list.

(** ** Exceptions and results *)

(** The Python exceptions that the modelled code can raise. *)
Inductive exn :=
  | OSError        (* osmnx.graph_from_file on an unreadable or malformed file *)
  | IndexError     (* random.choice on an empty index, nodes.index[idx] out of range *)
  | KeyError       (* G.nodes[n] for a node that is not in the graph *)
  | ValueError     (* .x/.y on a geometry that is not a point, list.remove of a missing item *)
  | TypeError      (* an argument that is not a GeoDataFrame *)
  | RouteError.    (* raised inside the agent collaborator *)

Inductive Result (A : Type) :=
  | Ok (a : A)
  | Raise (e : exn).
Arguments Ok {A} a.
Arguments Raise {A} e.

#[global] Instance exn_eq_dec : EqDecision exn.
Proof. solve_decision. Defined.

#[global] Instance Result_ret : MRet Result := λ A a, Ok a.
#[global] Instance Result_bind : MBind Result := λ A B f r,
  match r with
  | Ok a => f a
  | Raise e => Raise e
  end.

Definition is_Ok {A} (r : Result A) : Prop := ∃ a, r = Ok a.
Definition raises {A} (r : Result A) : Prop := ∃ e, r = Raise e.

(** [d[k]] on a Python dict or mapping: [KeyError] when the key is missing. *)
Definition getitem {A} (o : option A) (e : exn) : Result A :=
  match o with
  | Some a => Ok a
  | None => Raise e
  end.

(** ** Interfaces of the numeric libraries *)

(** Shapely geometries and the SciPy k-d tree.  [intersects] is the
    predicate that [geopandas.sjoin] applies by default, [point_xy] is the
    [.x]/[.y] accessor, defined on point geometries only, and [kd_query pts q]
    is [cKDTree(pts).query(q)[1]]: the position in [pts] of a point nearest
    to [q]. *)
Class Geometry := {
  coord : Type;
  geom : Type;
  intersects : geom → geom → bool;
  point_xy : geom → option (coord * coord);
  kd_query : list (coord * coord) → coord * coord → nat;
}.

(** Python's [random.Random].  Mesa seeds one generator per model, either
    from a user-supplied integer or from a reading of the wall clock. *)
Class RandomSource := {
  rng : Type;
  clock : Type;
  Random_of_int : Z → rng;
  Random_of_clock : clock → rng;
  randbelow : rng → nat → nat * rng;
  shuffle : rng → list nat → list nat * rng;
  randbelow_lt : ∀ r n, 0 < n → (randbelow r n).1 < n;
  shuffle_Permutation : ∀ r l, (shuffle r l).1 ≡ₚ l;
}.

(** ** Data model *)

Definition CRS := option string.

(** A GeoDataFrame: its [crs] attribute and its rows, each an index label
    with the geometry of the active geometry column. *)
Record GeoDataFrame `{Geometry} := {
  crs : CRS;
  rows : list (Z * geom);
}.

(** GeoDataFrames are mutable objects that the caller and the model share:
    they live in a store and are passed by reference. *)
Definition ref := positive.
Abbreviation store := (gmap ref GeoDataFrame).

(** The graph that [osmnx.graph_from_file] returns: the [crs] entry of
    [G.graph], the nodes in insertion order with their coordinates, and the
    edges (from, to, key). *)
Record MultiDiGraph `{Geometry} := {
  graph_crs : CRS;
  graph_nodes : list (Z * (coord * coord));
  graph_edges : list (Z * Z * nat);
}.

(** [osmnx.save_load.graph_to_gdfs(G)[0]]: one row per node, indexed by node
    identifier, carrying the CRS of the graph. *)
Record NodesFrame `{Geometry} := {
  nodes_crs : CRS;
  nodes_index : list Z;
  nodes_xy : list (coord * coord);
}.

Definition graph_to_gdfs `{Geometry} (g : MultiDiGraph) : NodesFrame :=
  {| nodes_crs := graph_crs g;
     nodes_index := (graph_nodes g).*1;
     nodes_xy := (graph_nodes g).*2 |}.

(** Modelled from the spec: [mesacat/agent.py] (class [EvacuationAgent]) is
    not part of this module.  Section 4.3 and 4.4 of the specification give
    its contract: [update_route] computes the initial navigation state of a
    freshly placed agent, and [step] advances the agent by one unit of time,
    consulting and updating its private navigation state and reporting the
    node it now stands on.  Either may fail. *)
Class RouteCollaborator `{Geometry} := {
  nav : Type;
  nav_init : nav;
  update_route : MultiDiGraph → Z → Z → nav → Result nav;
  agent_step : MultiDiGraph → Z → Z → nav → Result (Z * nav);
}.

(** ** The model state *)

(** An [EvacuationAgent] as the model sees it: the identifier and the
    position that Mesa gives every agent, and the collaborator's private
    navigation state. *)
Record EvacuationAgent `{RouteCollaborator} := {
  unique_id : nat;
  pos : Z;
  route : nav;
}.

(** [mesa.time.RandomActivation]: the step and time counters and the
    ordered dictionary [_agents], from [unique_id] to the agent. *)
Record RandomActivation `{RouteCollaborator} := {
  steps : nat;
  time : nat;
  agents : list (nat * EvacuationAgent);
}.

(** One row of the agent-level table: (Step, AgentID, position). *)
Definition record : Type := nat * nat * Z.
Definition DataFrame : Type := list record.

(** [mesa.datacollection.DataCollector] with the reporters of line 75-77:
    [model_vars] holds the list of the 'evacuated' reporter and
    [agent_records] is the dictionary from step counter to the rows
    collected at that step, in insertion order. *)
Record DataCollector := {
  model_vars : list nat;
  agent_records : list (nat * list record);
}.

(** The attributes of an [EvacuationModel] instance.  [grid] is the
    'agent' attribute that [NetworkGrid] attaches to every node of [G]:
    the identifiers of the agents standing on the node. *)
Record EvacuationModel `{RandomSource, RouteCollaborator} := {
  _seed : option Z;
  hazard : ref;
  agent_locations : ref;
  schedule : RandomActivation;
  G : MultiDiGraph;
  nodes : NodesFrame;
  grid : gmap Z (list nat);
  target_node : Z;
  data_collector : DataCollector;
  random : rng;
}.

(** How the caller wrote the [seed] argument in the call. *)
Inductive passing := Positional | Keyword.

(** The arguments of a call [EvacuationModel(osm_file, hazard,
    agent_locations, target_node, seed)]. *)
Record Args := {
  arg_osm_file : string;
  arg_hazard : ref;
  arg_agent_locations : ref;
  arg_target_node : option Z;
  arg_seed : option Z;
  arg_seed_passing : passing;
}.

(** What the constructor reads from its environment: the file system as
    [osmnx.graph_from_file] sees it ([None]: the file cannot be turned into
    a graph) and the wall clock [time.time()]. *)
Record Env `{Geometry, RandomSource} := {
  graph_from_file : string → option MultiDiGraph;
  time_time : clock;
}.

Section Model.
Context `{Geo : Geometry, Rnd : RandomSource, Col : !RouteCollaborator}.

(** *** Python dictionaries that keep insertion order *)

(** [d[k] = v]: an existing key keeps its place, a new key goes last. *)
Fixpoint dict_set {V} (k : nat) (v : V) (d : list (nat * V)) : list (nat * V) :=
  match d with
  | [] => [(k, v)]
  | (k', v') :: d' =>
      if decide (k' = k) then (k, v) :: d' else (k', v') :: dict_set k v d'
  end.

Fixpoint dict_get {V} (k : nat) (d : list (nat * V)) : option V :=
  match d with
  | [] => None
  | (k', v') :: d' => if decide (k' = k) then Some v' else dict_get k d'
  end.

(** *** Mesa: [Model.__new__], [RandomActivation], [NetworkGrid] *)

(** [Model.__new__(cls, *args, **kwargs)] creates the generator before
    [__init__] runs.  It looks for the seed among the keyword arguments
    only: [model._seed = time.time()], replaced by [kwargs["seed"]] when
    that key is present and not [None]; then
    [model.random = random.Random(model._seed)]. *)
Definition Model_new (env : Env) (a : Args) : rng :=
  match arg_seed_passing a, arg_seed a with
  | Keyword, Some s => Random_of_int s
  | _, _ => Random_of_clock (time_time env)
  end.

(** [random.choice(seq)]: [seq[randbelow(len(seq))]], and [IndexError] on
    an empty sequence. *)
Definition choice (r : rng) (seq : list Z) : Result (Z * rng) :=
  match seq with
  | [] => Raise IndexError
  | _ =>
      let '(i, r') := randbelow r (length seq) in
      x ← getitem (seq !! i) IndexError;
      Ok (x, r')
  end.

(** [RandomActivation(model)]. *)
Definition RandomActivation_init : RandomActivation :=
  {| steps := 0; time := 0; agents := [] |}.

(** [schedule.add(a)]: [self._agents[a.unique_id] = a]. *)
Definition schedule_add (s : RandomActivation) (a : EvacuationAgent) : RandomActivation :=
  {| steps := steps s; time := time s;
     agents := dict_set (unique_id a) a (agents s) |}.

(** [NetworkGrid(G)]: every node gets an empty 'agent' list. *)
Definition NetworkGrid_init (g : MultiDiGraph) : gmap Z (list nat) :=
  list_to_map ((λ n, (n, [])) <$> (graph_nodes g).*1).

(** [grid._place_agent(a, node)]: [G.nodes[node]["agent"].append(a)]. *)
Definition place_agent (gr : gmap Z (list nat)) (a : nat) (node : Z)
  : Result (gmap Z (list nat)) :=
  l ← getitem (gr !! node) KeyError;
  Ok (<[node := l ++ [a]]> gr).

(** [list.remove(x)] of Python: drops the first occurrence of [x]; [None]
    stands for the [ValueError] raised when [x] does not occur. *)
Fixpoint list_remove (x : nat) (l : list nat) : option (list nat) :=
  match l with
  | [] => None
  | y :: l' => if decide (x = y) then Some l' else (y ::.) <$> list_remove x l'
  end.

(** [grid._remove_agent(a, node)]: [G.nodes[node]["agent"].remove(a)];
    [list.remove] drops the first occurrence and raises [ValueError] when
    there is none. *)
Definition remove_agent (gr : gmap Z (list nat)) (a : nat) (node : Z)
  : Result (gmap Z (list nat)) :=
  l ← getitem (gr !! node) KeyError;
  l' ← getitem (list_remove a l) ValueError;
  Ok (<[node := l']> gr).

(** [grid.move_agent(a, node)]: remove from the old node, place on the
    new one. *)
Definition move_agent (gr : gmap Z (list nat)) (a : nat) (old new : Z)
  : Result (gmap Z (list nat)) :=
  gr' ← remove_agent gr a old;
  place_agent gr' a new.

(** *** GeoPandas and SciPy *)

(** [gdf.crs = c]: an attribute write on the object that [l] refers to. *)
Definition set_crs (l : ref) (c : CRS) (st : store) : store :=
  alter (λ g, {| crs := c; rows := rows g |}) l st.

(** [geopandas.sjoin(left, right)] with its defaults, [how='inner'] and the
    [intersects] predicate: one row for every pair of a left row and a right
    row whose geometries intersect, carrying the index label and the
    geometry of the left row and the index label of the right row.  Rows
    follow the order of [left]. *)
Definition sjoin (left right : GeoDataFrame) : list (Z * geom * Z) :=
  l ← rows left;
  r ← List.filter (λ r, intersects l.2 r.2) (rows right);
  [(l.1, l.2, r.1)].

(** [np.transpose([joined.geometry.x, joined.geometry.y])]: the coordinates
    of every row; [.x] raises [ValueError] on a geometry that is not a
    point. *)
Fixpoint geometry_xy (joined : list (Z * geom * Z)) : Result (list (coord * coord)) :=
  match joined with
  | [] => Ok []
  | row :: joined' =>
      xy ← getitem (point_xy row.1.2) ValueError;
      rest ← geometry_xy joined';
      Ok (xy :: rest)
  end.

(** [cKDTree(pts).query(qs)[1]]: for every query point the position of its
    nearest neighbour in [pts]. *)
Definition query (pts qs : list (coord * coord)) : list nat :=
  kd_query pts <$> qs.

(** *** The constructor, [EvacuationModel.__init__] *)

(** The loop [for i, idx in enumerate(node_idx)] of lines 69-73.  The agent
    object is registered first and then placed and routed; the schedule
    holds a reference to it, so it sees the placed and routed agent. *)
Fixpoint create_agents (g : MultiDiGraph) (target : Z) (index : list Z)
    (i : nat) (node_idx : list nat)
    (s : RandomActivation) (gr : gmap Z (list nat))
  : Result (RandomActivation * gmap Z (list nat)) :=
  match node_idx with
  | [] => Ok (s, gr)
  | idx :: node_idx' =>
      node ← getitem (index !! idx) IndexError;
      gr' ← place_agent gr i node;
      rt ← update_route g target node nav_init;
      create_agents g target index (S i) node_idx'
        (schedule_add s {| unique_id := i; pos := node; route := rt |}) gr'
  end.

(** [DataCollector(model_reporters=..., agent_reporters=...)]. *)
Definition DataCollector_init : DataCollector :=
  {| model_vars := []; agent_records := [] |}.

(** [EvacuationModel(...)]: the store after the call, and the new model or
    the exception raised.  A reference that does not denote a GeoDataFrame
    raises [TypeError]. *)
Definition EvacuationModel_init (env : Env) (st : store) (a : Args)
  : store * Result EvacuationModel :=
  let rnd := Model_new env a in
  match graph_from_file env (arg_osm_file a) with
  | None => (st, Raise OSError)
  | Some g =>
      let nds := graph_to_gdfs g in
      let st1 := set_crs (arg_hazard a) (nodes_crs nds) st in
      let st2 := set_crs (arg_agent_locations a) (nodes_crs nds) st1 in
      (st2,
       locs ← getitem (st2 !! arg_agent_locations a) TypeError;
       hz ← getitem (st2 !! arg_hazard a) TypeError;
       let agents_in_hazard_zone := sjoin locs hz in
       qs ← geometry_xy agents_in_hazard_zone;
       let node_idx := query (nodes_xy nds) qs in
       let gr := NetworkGrid_init g in
       tr ← match arg_target_node a with
            | Some t => Ok (t, rnd)
            | None => choice rnd (nodes_index nds)
            end;
       sg ← create_agents g tr.1 (nodes_index nds) 0 node_idx RandomActivation_init gr;
       Ok {| _seed := arg_seed a;
             hazard := arg_hazard a;
             agent_locations := arg_agent_locations a;
             schedule := sg.1;
             G := g;
             nodes := nds;
             grid := sg.2;
             target_node := tr.1;
             data_collector := DataCollector_init;
             random := tr.2 |})
  end.

(** *** [step] and [run] *)

(** [data_collector.collect(model)].  The model reporter 'evacuated' is
    [len(G.nodes[target_node]['agent'])]; the agent reporter 'position'
    reads [pos] of every scheduled agent, and the rows are stored under the
    current value of [schedule.steps]:
    [_agent_records[model.schedule.steps] = list(agent_records)]. *)
Definition collect (m : EvacuationModel) : Result DataCollector :=
  occupants ← getitem (grid m !! target_node m) KeyError;
  let t := steps (schedule m) in
  let recs := (λ a, (t, unique_id a.2, pos a.2)) <$> agents (schedule m) in
  Ok {| model_vars := model_vars (data_collector m) ++ [length occupants];
        agent_records := dict_set t recs (agent_records (data_collector m)) |}.

(** One activation, [agent.step()] for the agent registered under [key]
    ([agent_buffer] skips keys that are no longer registered).  The agent
    reports its new node; when it moved, the grid moves it. *)
Definition activate (g : MultiDiGraph) (target : Z) (key : nat)
    (s : list (nat * EvacuationAgent) * gmap Z (list nat))
  : Result (list (nat * EvacuationAgent) * gmap Z (list nat)) :=
  match dict_get key s.1 with
  | None => Ok s
  | Some a =>
      pn ← agent_step g target (pos a) (route a);
      gr ← (if decide (pn.1 = pos a) then Ok s.2
            else move_agent s.2 (unique_id a) (pos a) pn.1);
      Ok (dict_set key {| unique_id := unique_id a; pos := pn.1; route := pn.2 |} s.1, gr)
  end.

Fixpoint activate_all (g : MultiDiGraph) (target : Z) (keys : list nat)
    (s : list (nat * EvacuationAgent) * gmap Z (list nat))
  : Result (list (nat * EvacuationAgent) * gmap Z (list nat)) :=
  match keys with
  | [] => Ok s
  | key :: keys' => s' ← activate g target key s; activate_all g target keys' s'
  end.

(** [RandomActivation.step()]: shuffle the keys with the model's generator,
    activate every agent, then advance the counters. *)
Definition schedule_step (m : EvacuationModel) : Result EvacuationModel :=
  let kr := shuffle (random m) (agents (schedule m)).*1 in
  s ← activate_all (G m) (target_node m) kr.1 (agents (schedule m), grid m);
  Ok {| _seed := _seed m;
        hazard := hazard m;
        agent_locations := agent_locations m;
        schedule := {| steps := S (steps (schedule m));
                       time := S (time (schedule m));
                       agents := s.1 |};
        G := G m;
        nodes := nodes m;
        grid := s.2;
        target_node := target_node m;
        data_collector := data_collector m;
        random := kr.2 |}.

Definition set_data_collector (m : EvacuationModel) (dc : DataCollector) : EvacuationModel :=
  {| _seed := _seed m;
     hazard := hazard m;
     agent_locations := agent_locations m;
     schedule := schedule m;
     G := G m;
     nodes := nodes m;
     grid := grid m;
     target_node := target_node m;
     data_collector := dc;
     random := random m |}.

(** [EvacuationModel.step], lines 79-82. *)
Definition step (m : EvacuationModel) : Result EvacuationModel :=
  dc ← collect m;
  schedule_step (set_data_collector m dc).

(** [data_collector.get_agent_vars_dataframe()]: the rows of all collected
    steps, chained in the order of the dictionary. *)
Definition get_agent_vars_dataframe (dc : DataCollector) : DataFrame :=
  concat (agent_records dc).*2.

(** [for _ in range(n): self.step()]. *)
Fixpoint step_loop (n : nat) (m : EvacuationModel) : Result EvacuationModel :=
  match n with
  | 0 => Ok m
  | S n' => m' ← step m; step_loop n' m'
  end.

(** [EvacuationModel.run], lines 84-95: the model after the call together
    with the returned table.  [range(steps)] is empty for a negative
    [steps]. *)
Definition run (steps : Z) (m : EvacuationModel) : Result (EvacuationModel * DataFrame) :=
  m' ← step_loop (Z.to_nat steps) m;
  Ok (m', get_agent_vars_dataframe (data_collector m')).

(** *** [create_movie] *)











End Model.

(** ** Notions used in the statements *)

Section Notions.
Context `{Geo : Geometry, Rnd : RandomSource, Col : !RouteCollaborator}.

(** A candidate is at risk when its geometry intersects at least one hazard
    polygon; the candidates at risk are the rows that pass this test. *)
Definition at_risk (hz : GeoDataFrame) (c : Z * geom) : bool :=
  existsb (λ r, intersects c.2 r.2) (rows hz).

Definition candidates_at_risk (locs hz : GeoDataFrame) : list (Z * geom) :=
  List.filter (at_risk hz) (rows locs).

(** Two stores hold the same geometries when they differ at most in the
    [crs] labels of their objects. *)
Definition same_geometries (st1 st2 : store) : Prop :=
  ∀ l, rows <$> st1 !! l = rows <$> st2 !! l.

(** One movement of an agent, as the collaborator decides it, and [n]
    movements in a row. *)
Definition advance (g : MultiDiGraph) (target : Z) (a : EvacuationAgent)
  : Result EvacuationAgent :=
  pn ← agent_step g target (pos a) (route a);
  Ok {| unique_id := unique_id a; pos := pn.1; route := pn.2 |}.

Fixpoint advance_n (g : MultiDiGraph) (target : Z) (n : nat) (a : EvacuationAgent)
  : Result EvacuationAgent :=
  match n with
  | 0 => Ok a
  | S n' => a' ← advance g target a; advance_n g target n' a'
  end.

(** The row that the collector writes for the agent registered as [x] when
    the step counter is [j] and the agent has moved [j] times. *)
Definition recorded_row (g : MultiDiGraph) (target : Z) (j : nat)
    (x : nat * EvacuationAgent) (r : record) : Prop :=
  ∃ a, advance_n g target j x.2 = Ok a ∧ r = (j, x.1, pos a).

(** A collaborator is well behaved on a graph and a target, for agents in
    the states [I], when a movement of such an agent succeeds, keeps it in
    [I] and puts it on a node of the graph. *)
Definition well_behaved (g : MultiDiGraph) (target : Z) (I : EvacuationAgent → Prop) : Prop :=
  ∀ a, I a → ∃ a', advance g target a = Ok a' ∧ I a' ∧ pos a' ∈ (graph_nodes g).*1.

(** A registered agent is in order when it is registered under its own
    identifier, is in a state of [I] and is listed on the node of the grid
    that it believes to stand on. *)
Definition agent_ok (I : EvacuationAgent → Prop) (gr : gmap Z (list nat))
    (ka : nat * EvacuationAgent) : Prop :=
  unique_id ka.2 = ka.1 ∧ I ka.2 ∧ ∃ l, gr !! pos ka.2 = Some l ∧ ka.1 ∈ l.

(** A model is in order when its agents are, under distinct keys, and the
    grid has an entry for every node of the graph, the target among them. *)
Definition model_ok (I : EvacuationAgent → Prop) (m : EvacuationModel) : Prop :=
  NoDup (agents (schedule m)).*1 ∧
  Forall (agent_ok I (grid m)) (agents (schedule m)) ∧
  (∀ p, p ∈ (graph_nodes (G m)).*1 → is_Some (grid m !! p)) ∧
  target_node m ∈ (graph_nodes (G m)).*1.

(** The identifiers of the agents that stand on node [p], in the order of
    the schedule. *)
Definition occupants_of (ags : list (nat * EvacuationAgent)) (p : Z) : list nat :=
  (List.filter (λ ka, bool_decide (pos ka.2 = p)) ags).*1.

(** The rows of a table that belong to step [t], and among them those of
    agents standing on node [p]. *)
Definition rows_at (t : nat) (df : DataFrame) : list record :=
  List.filter (λ r : record, bool_decide (r.1.1 = t)) df.

Definition rows_on (p : Z) (rs : list record) : list record :=
  List.filter (λ r : record, bool_decide (r.2 = p)) rs.

(** The state of a model that construction and steps maintain: agents are
    registered under their own identifiers and stand on nodes of the
    graph; the grid has entries for nodes only and lists on every node the
    agents standing there, each once; the collector has one batch of rows
    for every step made so far, keyed 0, 1, ..., with one row per agent in
    schedule order, on nodes; and the model-level series has, for every
    batch, the number of its rows on the target. *)
Definition sound (m : EvacuationModel) : Prop :=
  let ags := agents (schedule m) in
  let N := (graph_nodes (G m)).*1 in
  let dc := data_collector m in
  Forall (λ ka, unique_id ka.2 = ka.1 ∧ pos ka.2 ∈ N) ags ∧
  (∀ p l, grid m !! p = Some l → l ≡ₚ occupants_of ags p) ∧
  (∀ p, is_Some (grid m !! p) ↔ p ∈ N) ∧
  (agent_records dc).*1 = seq 0 (steps (schedule m)) ∧
  Forall (λ kv, kv.2.*1 = (λ i, (kv.1, i)) <$> ags.*1 ∧ Forall (λ r, r.2 ∈ N) kv.2)
    (agent_records dc) ∧
  Forall2 (λ v kv, v = length (rows_on (target_node m) kv.2))
    (model_vars dc) (agent_records dc).

(** The step indices under which agent [i] appears in a table, in table
    order. *)
Definition steps_of (i : nat) (df : DataFrame) : list nat :=
  (λ r, r.1.1) <$> List.filter (λ r : record, bool_decide (r.1.2 = i)) df.

End Notions.

(** ** A concrete world

    Instances of the three interfaces on which the model can be run:
    integer coordinates with points and axis-parallel rectangles, a linear
    congruential generator, and a collaborator that walks along nodes with
    consecutive identifiers. *)
Module Scenario.

(** Points and closed axis-parallel rectangles. *)
Inductive shape :=
  | Point (x y : Z)
  | Box (xmin ymin xmax ymax : Z).

Definition in_box (x y xmin ymin xmax ymax : Z) : bool :=
  (xmin <=? x)%Z && (x <=? xmax)%Z && (ymin <=? y)%Z && (y <=? ymax)%Z.

(** Two shapes intersect when they share a point; boundaries count. *)
Definition shape_intersects (a b : shape) : bool :=
  match a, b with
  | Point x y, Point x' y' => (x =? x')%Z && (y =? y')%Z
  | Point x y, Box x0 y0 x1 y1 => in_box x y x0 y0 x1 y1
  | Box x0 y0 x1 y1, Point x y => in_box x y x0 y0 x1 y1
  | Box a0 b0 a1 b1, Box c0 d0 c1 d1 =>
      (a0 <=? c1)%Z && (c0 <=? a1)%Z && (b0 <=? d1)%Z && (d0 <=? b1)%Z
  end.

Definition shape_xy (a : shape) : option (Z * Z) :=
  match a with
  | Point x y => Some (x, y)
  | Box _ _ _ _ => None
  end.

Definition dist2 (p q : Z * Z) : Z :=
  ((p.1 - q.1) * (p.1 - q.1) + (p.2 - q.2) * (p.2 - q.2))%Z.

(** The first position of a point of [pts] at least distance from [q]. *)
Fixpoint nearest_from (pts : list (Z * Z)) (q : Z * Z) (i best : nat) (d : Z) : nat :=
  match pts with
  | [] => best
  | p :: pts' =>
      if (dist2 p q <? d)%Z then nearest_from pts' q (S i) i (dist2 p q)
      else nearest_from pts' q (S i) best d
  end.

Definition nearest (pts : list (Z * Z)) (q : Z * Z) : nat :=
  match pts with
  | [] => 0
  | p :: pts' => nearest_from pts' q 1 0 (dist2 p q)
  end.

#[export] Instance planar : Geometry := {|
  coord := Z;
  geom := shape;
  intersects := shape_intersects;
  point_xy := shape_xy;
  kd_query := nearest;
|}.

(** A linear congruential generator; a clock reading is a number of ticks. *)
Definition lcg_next (r : Z) : Z := ((r * 1103515245 + 12345) mod 2147483648)%Z.

Definition lcg_randbelow (r : Z) (n : nat) : nat * Z :=
  (Z.to_nat (r mod Z.of_nat n), lcg_next r).

Definition lcg_shuffle (r : Z) (l : list nat) : list nat * Z :=
  (if Z.even r then l else reverse l, lcg_next r).

Lemma lcg_randbelow_lt (r : Z) (n : nat) : 0 < n → (lcg_randbelow r n).1 < n.
Proof.
  intros Hn. cbn.
  pose proof (Z.mod_pos_bound r (Z.of_nat n)). lia.
Qed.

Lemma lcg_shuffle_Permutation (r : Z) (l : list nat) : (lcg_shuffle r l).1 ≡ₚ l.
Proof. cbn. destruct (Z.even r); [done | apply reverse_Permutation]. Qed.

#[export] Instance lcg : RandomSource := {|
  rng := Z;
  clock := Z;
  Random_of_int := λ s, s;
  Random_of_clock := λ t, t;
  randbelow := lcg_randbelow;
  shuffle := lcg_shuffle;
  randbelow_lt := lcg_randbelow_lt;
  shuffle_Permutation := lcg_shuffle_Permutation;
|}.

(** A collaborator for streets whose nodes are numbered consecutively: the
    route from [p] to the target is [p+1, p+2, ..., target], and every step
    moves to the next node of the route. *)
Definition walk_route (g : MultiDiGraph) (target p : Z) (_ : list Z) : Result (list Z) :=
  if bool_decide (target ∈ (graph_nodes g).*1)
  then Ok ((λ k, p + Z.of_nat k)%Z <$> seq 1 (Z.to_nat (target - p)))
  else Raise RouteError.

Definition walk_step (g : MultiDiGraph) (target p : Z) (rt : list Z) : Result (Z * list Z) :=
  match rt with
  | [] => Ok (p, [])
  | q :: rt' => Ok (q, rt')
  end.

#[export] Instance walker : RouteCollaborator := {|
  nav := list Z;
  nav_init := [];
  update_route := walk_route;
  agent_step := walk_step;
|}.

(** Four nodes A, B, C, D on a line, numbered 1 to 4. *)
Definition street : MultiDiGraph :=
  {| graph_crs := Some "epsg:4326";
     graph_nodes := [(1, (0, 0)); (2, (10, 0)); (3, (20, 0)); (4, (30, 0))]%Z;
     graph_edges := [(1%Z, 2%Z, 0); (2%Z, 3%Z, 0); (3%Z, 4%Z, 0)] |}.

Definition files (name : string) : option MultiDiGraph :=
  if bool_decide (name = "street.osm") then Some street else None.

Definition env_at (now : Z) : Env := {| graph_from_file := files; time_time := now |}.

(** A hazard polygon around A and B, and three candidates: two inside, near
    A and B, and one outside, near D. *)
Definition flood : GeoDataFrame :=
  {| crs := Some "epsg:4326"; rows := [(0, Box (-5) (-5) 15 5)]%Z |}.

Definition homes : GeoDataFrame :=
  {| crs := Some "epsg:4326"; rows := [(0, Point 1 1); (1, Point 9 1); (2, Point 29 0)]%Z |}.

(** Two overlapping hazard polygons; both contain the point (1, 1). *)
Definition flood_overlapping : GeoDataFrame :=
  {| crs := Some "epsg:4326";
     rows := [(0, Box (-5) (-5) 15 5); (1, Box 0 0 12 3)]%Z |}.

Definition one_home : GeoDataFrame :=
  {| crs := Some "epsg:4326"; rows := [(0, Point 1 1)]%Z |}.

(** A candidate outside the hazard only. *)
Definition far_home : GeoDataFrame :=
  {| crs := Some "epsg:4326"; rows := [(0, Point 29 0)]%Z |}.

(** The same hazard polygon labelled with another reference system. *)
Definition flood_osgb : GeoDataFrame :=
  {| crs := Some "epsg:27700"; rows := [(0, Box (-5) (-5) 15 5)]%Z |}.

Definition store_of (hz locs : GeoDataFrame) : store := <[1%positive := hz]> (<[2%positive := locs]> ∅).

Definition call (target : option Z) (seed : option Z) (how : passing) : Args :=
  {| arg_osm_file := "street.osm";
     arg_hazard := 1%positive;
     arg_agent_locations := 2%positive;
     arg_target_node := target;
     arg_seed := seed;
     arg_seed_passing := how |}.

(** The model of the scenario: target D, agents 0 and 1 standing on A and
    B with their routes to D. *)
Definition village : EvacuationModel :=
  {| _seed := None;
     hazard := 1%positive;
     agent_locations := 2%positive;
     schedule :=
       {| steps := 0; time := 0;
          agents := [(0, {| unique_id := 0; pos := 1; route := [2; 3; 4]%Z |});
                     (1, {| unique_id := 1; pos := 2; route := [3; 4]%Z |})] |};
     G := street;
     nodes := graph_to_gdfs street;
     grid := <[1%Z := [0]]> (<[2%Z := [1]]> (NetworkGrid_init street));
     target_node := 4;
     data_collector := DataCollector_init;
     random := 0%Z |}.

(** The model built from the candidate outside the hazard with the target
    99, which is no node of the street: no agent at all. *)
Definition deserted : EvacuationModel :=
  {| _seed := None;
     hazard := 1%positive;
     agent_locations := 2%positive;
     schedule := RandomActivation_init;
     G := street;
     nodes := graph_to_gdfs street;
     grid := NetworkGrid_init street;
     target_node := 99;
     data_collector := DataCollector_init;
     random := 0%Z |}.

(** The states in which the walking collaborator never fails: the agent
    stands on a node of the street and its route visits nodes only. *)
Definition on_street (a : EvacuationAgent) : Prop :=
  pos a ∈ (graph_nodes street).*1 ∧ Forall (λ q, q ∈ (graph_nodes street).*1) (route a).

(** The model that [run(n)] leaves when called on [village], and the table
    it returns. *)
Definition village_after (n : Z) : EvacuationModel :=
  match run n village with
  | Ok r => r.1
  | Raise _ => village
  end.

Definition village_table (n : Z) : DataFrame :=
  match run n village with
  | Ok r => r.2
  | Raise _ => []
  end.

(** The table returned by [run(n)] on a model built at clock reading [now]
    from the flood polygon and the three homes. *)
Definition series_at (now : Z) (a : Args) (n : Z) : Result DataFrame :=
  m ← (EvacuationModel_init (env_at now) (store_of flood homes) a).2;
  r ← run n m;
  Ok r.2.


(** Two candidates at risk, the second one a building outline rather than
    a point. *)
Definition homes_with_block : GeoDataFrame :=
  {| crs := Some "epsg:4326"; rows := [(0, Point 1 1); (1, Box 0 0 2 2)]%Z |}.


(** What [run(n)] leaves and returns when called on [m]. *)
Definition ran (m : EvacuationModel) (n : Z) : EvacuationModel * DataFrame :=
  match run n m with
  | Ok r => r
  | Raise _ => (m, [])
  end.

End Scenario.

(** * Properties *)

Section Properties.
Context `{Geo : Geometry, Rnd : RandomSource, Col : !RouteCollaborator}.

(** ** The result monad *)

Lemma bind_Ok_inv {A B} (r : Result A) (f : A → Result B) (b : B) :
  r ≫= f = Ok b → ∃ a, r = Ok a ∧ f a = Ok b.
Proof. destruct r as [a|e]; cbn; [eauto | discriminate]. Qed.

Lemma bind_assoc {A B C} (r : Result A) (f : A → Result B) (g : B → Result C) :
  (r ≫= f) ≫= g = r ≫= (λ a, f a ≫= g).
Proof. by destruct r. Qed.

Lemma getitem_Ok_inv {A} (o : option A) (e : exn) (a : A) :
  getitem o e = Ok a → o = Some a.
Proof. destruct o; cbn; congruence. Qed.

(** ** Ordered dictionaries *)

Lemma dict_set_keys_new {V} (k : nat) (v : V) (d : list (nat * V)) :
  k ∉ d.*1 → dict_set k v d = d ++ [(k, v)].
Proof.
  induction d as [|[k' v'] d IH]; cbn; [done|].
  intros Hk. apply not_elem_of_cons in Hk as [Hne Hk].
  case_decide; [congruence|]. by rewrite IH.
Qed.

Lemma dict_get_set_eq {V} (k : nat) (v : V) (d : list (nat * V)) :
  dict_get k (dict_set k v d) = Some v.
Proof.
  induction d as [|[k' v'] d IH]; cbn.
  - by rewrite decide_True.
  - case_decide; cbn; [by rewrite decide_True | by rewrite decide_False].
Qed.

Lemma dict_get_Some_elem {V} (k : nat) (v : V) (d : list (nat * V)) :
  dict_get k d = Some v → (k, v) ∈ d.
Proof.
  induction d as [|[k' v'] d IH]; cbn; [done|].
  case_decide; intros Hg.
  - simplify_eq. apply list_elem_of_here.
  - apply list_elem_of_further. auto.
Qed.

Lemma dict_get_NoDup {V} (k : nat) (v : V) (d : list (nat * V)) :
  NoDup d.*1 → (k, v) ∈ d → dict_get k d = Some v.
Proof.
  induction d as [|[k' v'] d IH]; cbn; intros Hnd Hin.
  - by apply elem_of_nil in Hin.
  - apply NoDup_cons in Hnd as [Hk' Hnd].
    apply elem_of_cons in Hin as [Heq|Hin].
    + simplify_eq. by rewrite decide_True.
    + case_decide as Hd; [|by apply IH].
      subst k'. exfalso. apply Hk'.
      apply list_elem_of_fmap. by exists (k, v).
Qed.

(** ** The loop of [run] *)

Lemma step_loop_add (n k : nat) (m : EvacuationModel) :
  step_loop (n + k) m = step_loop n m ≫= step_loop k.
Proof.
  revert m. induction n as [|n IH]; intros m; cbn; [done|].
  destruct (step m) as [m'|e]; cbn; [apply IH | done].
Qed.

(** ** The constructor, taken apart *)

Lemma EvacuationModel_init_store (env : Env) (st : store) (a : Args) (g : MultiDiGraph) :
  graph_from_file env (arg_osm_file a) = Some g →
  (EvacuationModel_init env st a).1 =
    set_crs (arg_agent_locations a) (graph_crs g) (set_crs (arg_hazard a) (graph_crs g) st).
Proof. intros Hg. unfold EvacuationModel_init. by rewrite Hg. Qed.

Lemma EvacuationModel_init_Ok (env : Env) (st : store) (a : Args) (m : EvacuationModel) :
  (EvacuationModel_init env st a).2 = Ok m →
  ∃ g locs hz qs tr sg,
    let st' := (EvacuationModel_init env st a).1 in
    graph_from_file env (arg_osm_file a) = Some g ∧
    st' !! arg_agent_locations a = Some locs ∧
    st' !! arg_hazard a = Some hz ∧
    geometry_xy (sjoin locs hz) = Ok qs ∧
    match arg_target_node a with
    | Some t => Ok (t, Model_new env a)
    | None => choice (Model_new env a) (graph_nodes g).*1
    end = Ok tr ∧
    create_agents g tr.1 (graph_nodes g).*1 0 (query (graph_nodes g).*2 qs)
      RandomActivation_init (NetworkGrid_init g) = Ok sg ∧
    m = {| _seed := arg_seed a;
           hazard := arg_hazard a;
           agent_locations := arg_agent_locations a;
           schedule := sg.1;
           G := g;
           nodes := graph_to_gdfs g;
           grid := sg.2;
           target_node := tr.1;
           data_collector := DataCollector_init;
           random := tr.2 |}.
Proof.
  unfold EvacuationModel_init.
  destruct (graph_from_file env (arg_osm_file a)) as [g|]; cbn -[sjoin]; [|discriminate].
  intros H.
  apply bind_Ok_inv in H as (locs & Hlocs & H). apply getitem_Ok_inv in Hlocs.
  apply bind_Ok_inv in H as (hz & Hhz & H). apply getitem_Ok_inv in Hhz.
  apply bind_Ok_inv in H as (qs & Hqs & H).
  apply bind_Ok_inv in H as (tr & Htr & H).
  apply bind_Ok_inv in H as (sg & Hsg & H).
  exists g, locs, hz, qs, tr, sg. repeat split; try done. congruence.
Qed.
(** ** Frame conditions of the constructor on the store *)

Lemma lookup_set_crs (l l' : ref) (c : CRS) (st : store) :
  set_crs l c st !! l' =
    if decide (l = l') then (λ g, {| crs := c; rows := rows g |}) <$> st !! l else st !! l'.
Proof. unfold set_crs. apply lookup_alter. Qed.

Lemma set_crs_rows (l l' : ref) (c : CRS) (st : store) :
  rows <$> set_crs l c st !! l' = rows <$> st !! l'.
Proof.
  rewrite lookup_set_crs. case_decide; [subst l'|done].
  by destruct (st !! l).
Qed.

Lemma set_crs_crs (l : ref) (c : CRS) (st : store) (x : GeoDataFrame) :
  set_crs l c st !! l = Some x → crs x = c.
Proof.
  rewrite lookup_set_crs, decide_True by done.
  destruct (st !! l); cbn; [|done]. by intros [= <-].
Qed.

Lemma set_crs_twice_crs (l1 l2 l : ref) (c : CRS) (st : store) (x : GeoDataFrame) :
  l = l1 ∨ l = l2 →
  set_crs l2 c (set_crs l1 c st) !! l = Some x → crs x = c.
Proof.
  intros Hl. rewrite lookup_set_crs. case_decide as Hd.
  - subst l. destruct (set_crs l1 c st !! l2); cbn; [|done]. by intros [= <-].
  - destruct Hl as [->| ->]; [|done]. apply set_crs_crs.
Qed.

Lemma set_crs_twice_eq (l1 l2 l : ref) (c : CRS) (st1 st2 : store) :
  l = l1 ∨ l = l2 →
  same_geometries st1 st2 →
  set_crs l2 c (set_crs l1 c st1) !! l = set_crs l2 c (set_crs l1 c st2) !! l.
Proof.
  intros Hl Hsame.
  assert (Hone : ∀ k, (λ g, {| crs := c; rows := rows g |}) <$> st1 !! k
                      = (λ g, {| crs := c; rows := rows g |}) <$> st2 !! k).
  { intros k. specialize (Hsame k).
    destruct (st1 !! k), (st2 !! k); cbn in *; congruence. }
  rewrite !lookup_set_crs.
  repeat case_decide; subst; rewrite ?Hone; try done.
  by destruct Hl.
Qed.

(** C9: the constructor overwrites, in the caller's own objects, the [crs]
    attribute of the hazard and of the agent locations with the CRS of the
    network nodes, whatever CRS they carried; their rows stay as they were
    and no other object of the store changes. *)
Theorem init_overwrites_crs_in_place (env : Env) (st st' : store) (a : Args)
    (m : EvacuationModel) :
  EvacuationModel_init env st a = (st', Ok m) →
  hazard m = arg_hazard a ∧ agent_locations m = arg_agent_locations a ∧
  (∃ hz locs,
      st' !! arg_hazard a = Some hz ∧ crs hz = nodes_crs (nodes m) ∧
      st' !! arg_agent_locations a = Some locs ∧ crs locs = nodes_crs (nodes m)) ∧
  same_geometries st st' ∧
  (∀ l, l ≠ arg_hazard a → l ≠ arg_agent_locations a → st' !! l = st !! l).
Proof.
  intros Hinit.
  assert (H1 : (EvacuationModel_init env st a).1 = st') by (by rewrite Hinit).
  assert (H2 : (EvacuationModel_init env st a).2 = Ok m) by (by rewrite Hinit).
  apply EvacuationModel_init_Ok in H2 as (g & locs & hz & qs & tr & sg & Hg & Hl & Hh & _ & _ & _ & ->).
  cbn in Hl, Hh. rewrite H1 in Hl, Hh.
  rewrite (EvacuationModel_init_store _ _ _ _ Hg) in H1. subst st'. cbn.
  split; [done|]. split; [done|]. split; [|split].
  - exists hz, locs. split; [done|]. split.
    { eapply set_crs_twice_crs; [|exact Hh]. by left. }
    split; [done|]. eapply set_crs_twice_crs; [|exact Hl]. by right.
  - intros l. by rewrite !set_crs_rows.
  - intros l Hne1 Hne2. by rewrite !lookup_set_crs, !decide_False by done.
Qed.

(** C4 (as the code has it): the constructor neither reprojects nor checks
    reference systems.  It only relabels: the geometries in the store are
    the ones the caller supplied, and the outcome of construction, model or
    exception, is the same for any two stores that differ only in the [crs]
    labels of their objects. *)
Theorem init_relabels_without_check (env : Env) (st1 st2 : store) (a : Args) :
  same_geometries st1 st2 →
  (EvacuationModel_init env st1 a).2 = (EvacuationModel_init env st2 a).2 ∧
  same_geometries st1 (EvacuationModel_init env st1 a).1.
Proof.
  intros Hsame. unfold EvacuationModel_init.
  destruct (graph_from_file env (arg_osm_file a)) as [g|]; cbn -[sjoin]; [|done].
  split; [|intros l; by rewrite !set_crs_rows].
  rewrite (set_crs_twice_eq _ _ (arg_agent_locations a) _ st1 st2) by (done || by right).
  rewrite (set_crs_twice_eq _ _ (arg_hazard a) _ st1 st2) by (done || by left).
  done.
Qed.

(** ** [run] *)

(** C8: on a freshly constructed model [run(0)] returns the empty table and
    the model it leaves is the constructed one, unchanged. *)
Theorem run_zero_on_fresh_model (env : Env) (st : store) (a : Args) (m : EvacuationModel) :
  (EvacuationModel_init env st a).2 = Ok m →
  run 0 m = Ok (m, []).
Proof.
  intros Hinit.
  apply EvacuationModel_init_Ok in Hinit as (g & locs & hz & qs & tr & sg & _ & _ & _ & _ & _ & _ & ->).
  reflexivity.
Qed.

(** C10: for non-negative [n] and [k], [run(n)] followed by [run(k)] on the
    model it leaves gives the same model and returns the same table as a
    single [run(n + k)]; an exception raised on the way is the same in
    both. *)
Theorem run_additive (n k : Z) (m : EvacuationModel) :
  (0 ≤ n)%Z → (0 ≤ k)%Z →
  run n m ≫= (λ r, run k r.1) = run (n + k) m.
Proof.
  intros Hn Hk. unfold run.
  rewrite Z2Nat.inj_add, step_loop_add by done.
  destruct (step_loop (Z.to_nat n) m) as [m'|e]; cbn; done.
Qed.

(** ** The hazard filter *)

Lemma sjoin_rows (l l' r r' : GeoDataFrame) :
  rows l = rows l' → rows r = rows r' → sjoin l r = sjoin l' r'.
Proof. unfold sjoin. by intros -> ->. Qed.

Lemma sjoin_unfold (l r : GeoDataFrame) :
  sjoin l r =
    concat ((λ c, (λ p, (c.1, c.2, p.1)) <$> List.filter (λ p, intersects c.2 p.2) (rows r))
            <$> rows l).
Proof.
  unfold sjoin, mbind, list_bind.
  induction (rows l) as [|c cs IH]; cbn; [done|]. rewrite <- IH. f_equal.
Qed.

Lemma at_risk_filter (hz : GeoDataFrame) (c : Z * geom) :
  at_risk hz c = false ↔ List.filter (λ p, intersects c.2 p.2) (rows hz) = [].
Proof.
  unfold at_risk. induction (rows hz) as [|p ps IH]; cbn; [done|].
  destruct (intersects c.2 p.2); cbn; [split; discriminate | done].
Qed.

(** The join is empty exactly when no candidate is at risk. *)
Lemma sjoin_nil (locs hz : GeoDataFrame) :
  sjoin locs hz = [] ↔ candidates_at_risk locs hz = [].
Proof.
  rewrite sjoin_unfold. unfold candidates_at_risk.
  induction (rows locs) as [|c cs IH]; cbn; [done|].
  destruct (at_risk hz c) eqn:Hc.
  - split; [|discriminate]. intros Happ. apply app_eq_nil in Happ as [Hnil _].
    apply fmap_nil_inv in Hnil. apply at_risk_filter in Hnil. congruence.
  - apply at_risk_filter in Hc. rewrite Hc. cbn. apply IH.
Qed.

(** Every candidate at risk has at least one row in the join, and exactly
    one when it intersects a single hazard polygon. *)
Lemma sjoin_length_ge (locs hz : GeoDataFrame) :
  length (candidates_at_risk locs hz) ≤ length (sjoin locs hz).
Proof.
  rewrite sjoin_unfold. unfold candidates_at_risk.
  induction (rows locs) as [|c cs IH]; cbn; [done|].
  rewrite length_app, length_fmap.
  destruct (at_risk hz c) eqn:Hc; cbn; [|lia].
  destruct (List.filter _ (rows hz)) eqn:Hf; cbn; [|lia].
  apply at_risk_filter in Hf. congruence.
Qed.

Lemma sjoin_length_disjoint (locs hz : GeoDataFrame) :
  (∀ c, c ∈ rows locs → length (List.filter (λ p, intersects c.2 p.2) (rows hz)) ≤ 1) →
  length (sjoin locs hz) = length (candidates_at_risk locs hz).
Proof.
  rewrite sjoin_unfold. unfold candidates_at_risk.
  induction (rows locs) as [|c cs IH]; cbn; intros Hone; [done|].
  rewrite length_app, length_fmap, IH by (intros; apply Hone; by apply list_elem_of_further).
  specialize (Hone c (list_elem_of_here _ _)).
  destruct (at_risk hz c) eqn:Hc; cbn.
  - destruct (List.filter _ (rows hz)) as [|p [|q ps]] eqn:Hf; cbn in *; [|done|lia].
    apply at_risk_filter in Hf. congruence.
  - apply at_risk_filter in Hc. by rewrite Hc.
Qed.

Lemma geometry_xy_length (joined : list (Z * geom * Z)) (qs : list (coord * coord)) :
  geometry_xy joined = Ok qs → length qs = length joined.
Proof.
  revert qs. induction joined as [|row joined IH]; cbn; intros qs H.
  - by injection H as <-.
  - apply bind_Ok_inv in H as (xy & _ & H).
    apply bind_Ok_inv in H as (rest & Hrest & H). injection H as <-.
    cbn. f_equal. by apply IH.
Qed.

(** ** Agent placement *)

Lemma place_agent_lookup (gr gr' : gmap Z (list nat)) (i : nat) (node : Z) :
  place_agent gr i node = Ok gr' →
  ∃ l, gr !! node = Some l ∧ gr' = <[node := l ++ [i]]> gr.
Proof.
  unfold place_agent. intros H.
  apply bind_Ok_inv in H as (l & Hl & H). apply getitem_Ok_inv in Hl.
  injection H as <-. eauto.
Qed.

Lemma place_agent_None (gr gr' : gmap Z (list nat)) (i : nat) (node t : Z) :
  place_agent gr i node = Ok gr' → gr !! t = None → gr' !! t = None.
Proof.
  intros H Ht. apply place_agent_lookup in H as (l & Hl & ->).
  rewrite lookup_insert_ne; [done|]. intros ->. congruence.
Qed.

(** What the placement loop builds: it leaves the counters alone, appends
    one agent per joined row, numbered consecutively, each standing on a
    node of the index, and never adds a node to the grid. *)
Lemma create_agents_spec (g : MultiDiGraph) (target : Z) (index : list Z)
    (node_idx : list nat) (i : nat) (s s' : RandomActivation) (gr gr' : gmap Z (list nat)) :
  create_agents g target index i node_idx s gr = Ok (s', gr') →
  (∀ k, k ∈ (agents s).*1 → k < i) →
  steps s' = steps s ∧ time s' = time s ∧
  (∀ t, gr !! t = None → gr' !! t = None) ∧
  ∃ new, agents s' = agents s ++ new ∧
         new.*1 = seq i (length node_idx) ∧
         Forall (λ ka, unique_id ka.2 = ka.1 ∧ pos ka.2 ∈ index) new.
Proof.
  revert i s gr. induction node_idx as [|idx node_idx IH]; intros i s gr; cbn.
  - intros [= <- <-] _. repeat split; try done. exists []. by rewrite app_nil_r.
  - intros H Hlt.
    apply bind_Ok_inv in H as (node & Hnode & H). apply getitem_Ok_inv in Hnode.
    apply bind_Ok_inv in H as (gr1 & Hgr1 & H).
    apply bind_Ok_inv in H as (rt & Hrt & H).
    assert (Hfresh : i ∉ (agents s).*1) by (intros Hi; apply Hlt in Hi; lia).
    apply IH in H as (Hst & Htm & Hgr & new & Hag & Hkeys & Hall).
    + cbn in Hst, Htm, Hag. rewrite dict_set_keys_new in Hag by done.
      split; [done|]. split; [done|]. split.
      { intros t Ht. apply Hgr. by eapply place_agent_None. }
      eexists (_ :: new). split; [by rewrite Hag, <- app_assoc|].
      split; [cbn; by rewrite Hkeys|].
      constructor; [|done]. cbn. split; [done|]. by eapply list_elem_of_lookup_2.
    + cbn. rewrite dict_set_keys_new by done. rewrite fmap_app. cbn.
      intros k Hk. apply elem_of_app in Hk as [Hk|Hk].
      * apply Hlt in Hk. lia.
      * apply list_elem_of_singleton in Hk. lia.
Qed.

Lemma NetworkGrid_init_None (g : MultiDiGraph) (t : Z) :
  t ∉ (graph_nodes g).*1 → NetworkGrid_init g !! t = None.
Proof.
  intros Ht. unfold NetworkGrid_init. apply not_elem_of_list_to_map_1.
  rewrite <- list_fmap_compose.
  induction (graph_nodes g).*1 as [|x xs IH]; cbn; [done|].
  apply not_elem_of_cons in Ht as [Hne Ht]. apply not_elem_of_cons. auto.
Qed.

(** What a successfully constructed model looks like. *)
Lemma EvacuationModel_init_fresh (env : Env) (st : store) (a : Args) (m : EvacuationModel) :
  (EvacuationModel_init env st a).2 = Ok m →
  ∃ locs hz,
    (EvacuationModel_init env st a).1 !! arg_agent_locations a = Some locs ∧
    (EvacuationModel_init env st a).1 !! arg_hazard a = Some hz ∧
    graph_from_file env (arg_osm_file a) = Some (G m) ∧
    steps (schedule m) = 0 ∧
    data_collector m = DataCollector_init ∧
    (agents (schedule m)).*1 = seq 0 (length (sjoin locs hz)) ∧
    Forall (λ ka, unique_id ka.2 = ka.1 ∧ pos ka.2 ∈ (graph_nodes (G m)).*1) (agents (schedule m)) ∧
    (∀ t, t ∉ (graph_nodes (G m)).*1 → grid m !! t = None) ∧
    (∀ t, arg_target_node a = Some t → target_node m = t).
Proof.
  intros Hinit.
  apply EvacuationModel_init_Ok in Hinit
    as (g & locs & hz & qs & tr & [s gr] & Hg & Hl & Hh & Hqs & Htr & Hsg & ->).
  apply create_agents_spec in Hsg as (Hst & _ & Hgr & new & Hag & Hkeys & Hall);
    [|cbn; intros k Hk; by apply elem_of_nil in Hk].
  cbn in *. exists locs, hz. repeat split; try done.
  - rewrite Hag, Hkeys. unfold query. by rewrite length_fmap, (geometry_xy_length _ _ Hqs).
  - by rewrite Hag.
  - intros t Ht. apply Hgr. by apply NetworkGrid_init_None.
  - intros t Ht. rewrite Ht in Htr. by injection Htr as <-.
Qed.

(** The constructor registers one agent per row of the join of the
    candidates with the hazard polygons: one per pair of a candidate and a
    polygon that intersect. *)
Lemma agents_count_is_join_size (env : Env) (st : store) (a : Args) (m : EvacuationModel)
    (locs hz : GeoDataFrame) :
  st !! arg_agent_locations a = Some locs →
  st !! arg_hazard a = Some hz →
  (EvacuationModel_init env st a).2 = Ok m →
  length (agents (schedule m)) = length (sjoin locs hz).
Proof.
  intros Hl Hh Hinit.
  destruct (EvacuationModel_init_fresh _ _ _ _ Hinit)
    as (locs' & hz' & Hl' & Hh' & Hg & _ & _ & Hkeys & _).
  rewrite (EvacuationModel_init_store _ _ _ _ Hg) in Hl', Hh'.
  apply (f_equal (fmap rows)) in Hl', Hh'. rewrite !set_crs_rows in Hl', Hh'.
  rewrite Hl in Hl'. rewrite Hh in Hh'. cbn in Hl', Hh'.
  injection Hl' as Hl'. injection Hh' as Hh'.
  rewrite <- (length_fmap fst), Hkeys, length_seq.
  f_equal. by apply sjoin_rows.
Qed.

(** X2: with hazard polygons of which no candidate meets more than one,
    the agents are as many as the candidates at risk. *)
Lemma agents_count_disjoint_hazard (env : Env) (st : store) (a : Args) (m : EvacuationModel)
    (locs hz : GeoDataFrame) :
  st !! arg_agent_locations a = Some locs →
  st !! arg_hazard a = Some hz →
  (∀ c, c ∈ rows locs → length (List.filter (λ p, intersects c.2 p.2) (rows hz)) ≤ 1) →
  (EvacuationModel_init env st a).2 = Ok m →
  length (agents (schedule m)) = length (candidates_at_risk locs hz).
Proof.
  intros Hl Hh Hone Hinit.
  rewrite (agents_count_is_join_size _ _ _ _ _ _ Hl Hh Hinit).
  by apply sjoin_length_disjoint.
Qed.

(** ** Construction without candidates, and with a target that is no node *)

Lemma choice_Ok (r : rng) (seq : list Z) :
  seq ≠ [] → ∃ x r', choice r seq = Ok (x, r') ∧ x ∈ seq.
Proof.
  intros Hne. unfold choice. destruct seq as [|z seq]; [done|].
  pose proof (randbelow_lt r (length (z :: seq))) as Hlt.
  destruct (randbelow r (length (z :: seq))) as [i r'] eqn:Hrb. cbn [fst] in Hlt.
  destruct (lookup_lt_is_Some_2 (z :: seq) i) as [x Hx]; [apply Hlt; cbn; lia|].
  exists x, r'. rewrite Hx. cbn. split; [done|]. by eapply list_elem_of_lookup_2.
Qed.

Lemma set_crs_twice_lookup (l1 l2 l : ref) (c : CRS) (st : store) (x : GeoDataFrame) :
  st !! l = Some x →
  ∃ x', set_crs l2 c (set_crs l1 c st) !! l = Some x' ∧ rows x' = rows x.
Proof.
  intros Hx.
  assert (Hr : rows <$> set_crs l2 c (set_crs l1 c st) !! l = Some (rows x))
    by (by rewrite !set_crs_rows, Hx).
  destruct (set_crs l2 c (set_crs l1 c st) !! l) as [x'|]; [|done].
  exists x'. split; [done|]. by injection Hr.
Qed.

(** C2 (as the code has it): when no candidate is at risk the constructor
    completes and returns a model with no agent; this needs only a network
    that loads and a target, supplied or drawn from a non-empty node set. *)
Theorem init_without_candidates_succeeds (env : Env) (st : store) (a : Args)
    (g : MultiDiGraph) (locs hz : GeoDataFrame) :
  graph_from_file env (arg_osm_file a) = Some g →
  st !! arg_agent_locations a = Some locs →
  st !! arg_hazard a = Some hz →
  candidates_at_risk locs hz = [] →
  is_Some (arg_target_node a) ∨ graph_nodes g ≠ [] →
  ∃ m, (EvacuationModel_init env st a).2 = Ok m ∧ agents (schedule m) = [].
Proof.
  intros Hg Hl Hh Hrisk Htarget. unfold EvacuationModel_init. rewrite Hg. cbn -[sjoin].
  destruct (set_crs_twice_lookup (arg_hazard a) (arg_agent_locations a) _ (graph_crs g) _ _ Hl)
    as (locs' & -> & Hrl).
  destruct (set_crs_twice_lookup (arg_hazard a) (arg_agent_locations a) _ (graph_crs g) _ _ Hh)
    as (hz' & -> & Hrh).
  cbn -[sjoin]. rewrite (sjoin_rows locs' locs hz' hz Hrl Hrh).
  apply sjoin_nil in Hrisk. rewrite Hrisk. cbn.
  destruct (arg_target_node a) as [t|]; cbn; [eauto|].
  destruct Htarget as [[? [=]]|Hne].
  destruct (choice_Ok (Model_new env a) (graph_nodes g).*1) as (x & r' & -> & _).
  { by destruct (graph_nodes g). }
  cbn. eauto.
Qed.

Lemma step_loop_Raise (n : nat) (m : EvacuationModel) (e : exn) :
  0 < n → step m = Raise e → step_loop n m = Raise e.
Proof. destruct n; [lia|]. cbn. by intros _ ->. Qed.

(** C3 (as the code has it): the constructor stores a supplied target
    without looking it up.  With a target that is no node of the graph it
    still succeeds when no candidate is at risk, and whenever it succeeds
    the failure comes at the first [step()], hence at the first [run(n)]
    with [n > 0]: the 'evacuated' reporter raises [KeyError]. *)
Theorem invalid_target_surfaces_at_first_step (env : Env) (st : store) (a : Args)
    (g : MultiDiGraph) (t : Z) :
  graph_from_file env (arg_osm_file a) = Some g →
  arg_target_node a = Some t →
  t ∉ (graph_nodes g).*1 →
  (∀ locs hz,
      st !! arg_agent_locations a = Some locs →
      st !! arg_hazard a = Some hz →
      candidates_at_risk locs hz = [] →
      is_Ok (EvacuationModel_init env st a).2) ∧
  (∀ m, (EvacuationModel_init env st a).2 = Ok m →
        target_node m = t ∧ step m = Raise KeyError ∧
        ∀ n, (0 < n)%Z → run n m = Raise KeyError).
Proof.
  intros Hg Ht Hnot. split.
  - intros locs hz Hl Hh Hrisk.
    destruct (init_without_candidates_succeeds env st a g locs hz) as (m & Hm & _); try done.
    + left. by rewrite Ht.
    + by exists m.
  - intros m Hinit.
    destruct (EvacuationModel_init_fresh _ _ _ _ Hinit)
      as (_ & _ & _ & _ & Hg' & _ & _ & _ & _ & Hgrid & Htarget).
    rewrite Hg in Hg'. injection Hg' as ->.
    specialize (Htarget t Ht). specialize (Hgrid t Hnot).
    assert (Hstep : step m = Raise KeyError).
    { unfold step, collect. by rewrite Htarget, Hgrid. }
    split; [done|]. split; [done|].
    intros n Hn. unfold run. rewrite (step_loop_Raise _ _ KeyError); [done|lia|done].
Qed.

(** ** One step of the schedule *)

Lemma dict_get_None {V} (k : nat) (d : list (nat * V)) :
  dict_get k d = None → k ∉ d.*1.
Proof.
  induction d as [|[k' v'] d IH]; cbn; [intros _; apply not_elem_of_nil|].
  case_decide; [done|]. intros Hg. apply not_elem_of_cons. auto.
Qed.

(** Assigning to a key that is present changes that entry and no other. *)
Lemma dict_set_Forall2 {V} (k : nat) (v v' : V) (d : list (nat * V)) :
  NoDup d.*1 → dict_get k d = Some v →
  Forall2 (λ x y, y.1 = x.1 ∧ if decide (x.1 = k) then x.2 = v ∧ y.2 = v' else y.2 = x.2)
    d (dict_set k v' d).
Proof.
  induction d as [|[k0 v0] d IH]; cbn; [done|].
  intros Hnd Hget. apply NoDup_cons in Hnd as [Hk0 Hnd].
  case_decide as Hd.
  - subst k0. injection Hget as ->. constructor.
    + cbn. by rewrite decide_True.
    + apply Forall_Forall2_diag, Forall_forall. intros [k1 v1] Hin. cbn.
      split; [done|]. rewrite decide_False; [done|].
      intros ->. apply Hk0. apply list_elem_of_fmap. by exists (k, v1).
  - constructor; [|by apply IH]. cbn. by rewrite decide_False.
Qed.

Lemma Forall2_keys {V} (P : nat * V → nat * V → Prop) (d d' : list (nat * V)) :
  Forall2 (λ x y, y.1 = x.1 ∧ P x y) d d' → d'.*1 = d.*1.
Proof. induction 1 as [|x y d d' [Hk _] _ IH]; cbn; [done|]. by rewrite Hk, IH. Qed.

(** One activation moves the agent registered under [key] once and leaves
    the other agents as they are. *)
Lemma activate_spec (g : MultiDiGraph) (target : Z) (key : nat)
    (ags ags' : list (nat * EvacuationAgent)) (gr gr' : gmap Z (list nat)) :
  NoDup ags.*1 →
  activate g target key (ags, gr) = Ok (ags', gr') →
  Forall2 (λ x y, y.1 = x.1 ∧
                  if decide (x.1 = key) then advance g target x.2 = Ok y.2 else y.2 = x.2)
    ags ags'.
Proof.
  intros Hnd. unfold activate. cbn [fst snd].
  destruct (dict_get key ags) as [a|] eqn:Hget.
  - intros H. apply bind_Ok_inv in H as (pn & Hpn & H).
    apply bind_Ok_inv in H as (gr1 & _ & H). injection H as <- <-.
    eapply Forall2_impl; [by apply (dict_set_Forall2 key a)|].
    intros x y [Hk Hxy]. split; [done|]. cbn in Hxy.
    case_decide; [|done]. destruct Hxy as [-> ->]. unfold advance. by rewrite Hpn.
  - intros [= <- <-]. apply dict_get_None in Hget.
    apply Forall_Forall2_diag, Forall_forall. intros [k v] Hin. cbn.
    split; [done|]. rewrite decide_False; [done|].
    intros ->. apply Hget. apply list_elem_of_fmap. by exists (key, v).
Qed.

(** Activating a duplicate-free list of keys moves every agent whose key is
    listed exactly once. *)
Lemma activate_all_spec (g : MultiDiGraph) (target : Z) (keys : list nat)
    (ags ags' : list (nat * EvacuationAgent)) (gr gr' : gmap Z (list nat)) :
  NoDup ags.*1 → NoDup keys →
  activate_all g target keys (ags, gr) = Ok (ags', gr') →
  Forall2 (λ x y, y.1 = x.1 ∧
                  if decide (x.1 ∈ keys) then advance g target x.2 = Ok y.2 else y.2 = x.2)
    ags ags'.
Proof.
  revert ags gr. induction keys as [|key keys IH]; intros ags gr Hnd Hkeys; cbn.
  - intros [= <- <-]. apply Forall_Forall2_diag, Forall_forall. intros x _.
    split; [done|]. rewrite decide_False; [done|]. apply not_elem_of_nil.
  - intros H. apply bind_Ok_inv in H as ([ags1 gr1] & H1 & H).
    apply NoDup_cons in Hkeys as [Hkey Hkeys].
    apply activate_spec in H1; [|done].
    apply IH in H; [|by rewrite (Forall2_keys _ _ _ H1)|done].
    eapply Forall2_trans; [|exact H1|exact H].
    intros x y z [Hy Hxy] [Hz Hyz]. cbn in *. split; [congruence|].
    rewrite Hy in Hyz.
    destruct (decide (x.1 = key)) as [Heq|Hne].
    + rewrite decide_True by (rewrite Heq; apply list_elem_of_here).
      rewrite decide_False in Hyz by (by rewrite Heq). by rewrite Hyz.
    + rewrite Hxy in Hyz. destruct (decide (x.1 ∈ keys)) as [Hin|Hnin].
      * by rewrite decide_True by (by apply list_elem_of_further).
      * rewrite decide_False; [done|].
        intros Hin. apply elem_of_cons in Hin as [?|?]; done.
Qed.

Lemma Forall2_impl_elem {A B} (P Q : A → B → Prop) (l : list A) (k : list B) :
  Forall2 P l k → (∀ x y, x ∈ l → P x y → Q x y) → Forall2 Q l k.
Proof.
  induction 1 as [|x y l k Hxy _ IH]; intros Himp; constructor.
  - apply Himp; [apply list_elem_of_here | done].
  - apply IH. intros x' y' Hin. apply Himp. by apply list_elem_of_further.
Qed.

(** [schedule.step()] moves every registered agent exactly once, whatever
    the order the generator picks, and advances the step counter by one. *)
Lemma schedule_step_spec (m m' : EvacuationModel) :
  NoDup (agents (schedule m)).*1 →
  schedule_step m = Ok m' →
  steps (schedule m') = S (steps (schedule m)) ∧
  G m' = G m ∧ target_node m' = target_node m ∧
  data_collector m' = data_collector m ∧
  Forall2 (λ x y, y.1 = x.1 ∧ advance (G m) (target_node m) x.2 = Ok y.2)
    (agents (schedule m)) (agents (schedule m')).
Proof.
  intros Hnd. unfold schedule_step. intros H.
  apply bind_Ok_inv in H as ([ags' gr'] & Hact & H). injection H as <-. cbn.
  repeat split; try done.
  pose proof (shuffle_Permutation (random m) (agents (schedule m)).*1) as Hperm.
  apply activate_all_spec in Hact; [|done|by rewrite Hperm].
  eapply Forall2_impl_elem; [exact Hact|].
  intros x y Hin [Hk Hxy]. split; [done|]. cbn in Hxy.
  rewrite decide_True in Hxy; [done|].
  rewrite Hperm. apply list_elem_of_fmap. by exists x.
Qed.

(** [step()] stores the rows of the agents as they stand before the
    activation, under the step counter as it is before the activation. *)
Lemma step_spec (m m' : EvacuationModel) :
  NoDup (agents (schedule m)).*1 →
  step m = Ok m' →
  steps (schedule m') = S (steps (schedule m)) ∧
  G m' = G m ∧ target_node m' = target_node m ∧
  length (model_vars (data_collector m')) = S (length (model_vars (data_collector m))) ∧
  agent_records (data_collector m') =
    dict_set (steps (schedule m))
      ((λ a, (steps (schedule m), unique_id a.2, pos a.2)) <$> agents (schedule m))
      (agent_records (data_collector m)) ∧
  Forall2 (λ x y, y.1 = x.1 ∧ advance (G m) (target_node m) x.2 = Ok y.2)
    (agents (schedule m)) (agents (schedule m')).
Proof.
  intros Hnd. unfold step. intros H.
  apply bind_Ok_inv in H as (dc & Hdc & H).
  unfold collect in Hdc. apply bind_Ok_inv in Hdc as (occ & _ & Hdc). injection Hdc as <-.
  apply schedule_step_spec in H as (Hst & HG & Ht & Hd & Hall); [|done].
  cbn in *. rewrite Hd. cbn. rewrite length_app. cbn.
  repeat split; try done. lia.
Qed.

Lemma advance_unique_id (g : MultiDiGraph) (target : Z) (a a' : EvacuationAgent) :
  advance g target a = Ok a' → unique_id a' = unique_id a.
Proof.
  unfold advance. intros H. apply bind_Ok_inv in H as (pn & _ & H). by injection H as <-.
Qed.

Lemma advance_n_snoc (g : MultiDiGraph) (target : Z) (n : nat) (a : EvacuationAgent) :
  advance_n g target (S n) a = advance_n g target n a ≫= advance g target.
Proof.
  revert a. induction n as [|n IH]; intros a.
  - cbn. by destruct (advance g target a).
  - change (advance_n g target (S (S n)) a)
      with (advance g target a ≫= advance_n g target (S n)).
    change (advance_n g target (S n) a)
      with (advance g target a ≫= advance_n g target n).
    destruct (advance g target a) as [a'|e]; [|done]. apply IH.
Qed.

(** ** The trace of a run on a fresh model *)

(** After [n] steps on a model whose collector is empty and whose counter
    is zero: the counter is [n], every agent has moved [n] times, and the
    collector holds, for each [j < n] in turn, the rows of all agents after
    [j] movements. *)
Lemma step_loop_trace (n : nat) (m0 m : EvacuationModel) :
  NoDup (agents (schedule m0)).*1 →
  Forall (λ ka, unique_id ka.2 = ka.1) (agents (schedule m0)) →
  steps (schedule m0) = 0 →
  data_collector m0 = DataCollector_init →
  step_loop n m0 = Ok m →
  steps (schedule m) = n ∧ G m = G m0 ∧ target_node m = target_node m0 ∧
  Forall2 (λ x y, y.1 = x.1 ∧ unique_id y.2 = x.1 ∧
                  advance_n (G m0) (target_node m0) n x.2 = Ok y.2)
    (agents (schedule m0)) (agents (schedule m)) ∧
  length (model_vars (data_collector m)) = n ∧
  Forall2 (λ j kv, kv.1 = j ∧
                   Forall2 (recorded_row (G m0) (target_node m0) j)
                     (agents (schedule m0)) kv.2)
    (seq 0 n) (agent_records (data_collector m)).
Proof.
  intros Hnd Huid Hst0 Hdc0. revert m. induction n as [|n IH]; intros m.
  - cbn. intros [= <-]. rewrite Hdc0. cbn. repeat split; try done.
    apply Forall_Forall2_diag. eapply Forall_impl; [exact Huid|]. by intros x ->.
  - replace (S n) with (n + 1) by lia. rewrite step_loop_add. intros H.
    apply bind_Ok_inv in H as (mn & Hmn & H). cbn in H.
    apply bind_Ok_inv in H as (m1 & Hstep & [= ->]).
    destruct (IH mn Hmn) as (Hst & HG & Ht & Hags & Hmv & Hrec).
    assert (Hkeys : (agents (schedule mn)).*1 = (agents (schedule m0)).*1)
      by (by apply Forall2_keys in Hags).
    apply step_spec in Hstep as (Hst' & HG' & Ht' & Hmv' & Hrec' & Hags');
      [|by rewrite Hkeys].
    rewrite HG, Ht in Hags'. rewrite Hst in Hrec'.
    split; [lia|]. split; [congruence|]. split; [congruence|]. split; [|split; [lia|]].
    + eapply Forall2_trans; [|exact Hags|exact Hags'].
      intros x y z (Hy & Huy & Hxy) (Hz & Hyz). cbn in *.
      split; [congruence|]. split.
      * rewrite (advance_unique_id _ _ _ _ Hyz). done.
      * replace (n + 1) with (S n) by lia. rewrite advance_n_snoc, Hxy. done.
    + assert (Hfresh : n ∉ (agent_records (data_collector mn)).*1).
      { assert (Hk : (agent_records (data_collector mn)).*1 = seq 0 n).
        { clear -Hrec. induction Hrec as [|j kv js kvs [Hj _] _ IHr]; cbn; [done|].
          by rewrite Hj, IHr. }
        rewrite Hk. rewrite elem_of_seq. lia. }
      rewrite Hrec', dict_set_keys_new by done.
      replace (n + 1) with (S n) by lia. rewrite seq_S. cbn.
      apply Forall2_app; [done|]. constructor; [|constructor].
      cbn. split; [done|]. apply Forall2_fmap_r.
      eapply Forall2_impl; [exact Hags|].
      intros x y (Hy & Huy & Hxy). cbn. exists y.2. by rewrite Huy.
Qed.

Lemma Forall2_elem_of_r {A B} (P : A → B → Prop) (l : list A) (k : list B) (y : B) :
  Forall2 P l k → y ∈ k → ∃ x, x ∈ l ∧ P x y.
Proof.
  induction 1 as [|x y' l k Hxy _ IH]; intros Hin.
  - by apply elem_of_nil in Hin.
  - apply elem_of_cons in Hin as [->|Hin].
    + exists x. split; [apply list_elem_of_here | done].
    + destruct (IH Hin) as (x' & Hx' & HP). exists x'. split; [|done].
      by apply list_elem_of_further.
Qed.

Lemma steps_of_app (i : nat) (df1 df2 : DataFrame) :
  steps_of i (df1 ++ df2) = steps_of i df1 ++ steps_of i df2.
Proof. unfold steps_of. by rewrite List.filter_app, fmap_app. Qed.

Lemma steps_of_absent (g : MultiDiGraph) (target : Z) (j i : nat)
    (ags : list (nat * EvacuationAgent)) (rs : list record) :
  Forall2 (recorded_row g target j) ags rs → i ∉ ags.*1 → steps_of i rs = [].
Proof.
  induction 1 as [|x r ags rs (a & _ & ->) _ IH]; cbn; [done|].
  intros Hi. apply not_elem_of_cons in Hi as [Hne Hi].
  unfold steps_of in *. cbn. rewrite bool_decide_false by done. by apply IH.
Qed.

(** Among the rows collected at one step every registered agent has
    exactly one. *)
Lemma steps_of_one_step (g : MultiDiGraph) (target : Z) (j i : nat)
    (ags : list (nat * EvacuationAgent)) (rs : list record) :
  Forall2 (recorded_row g target j) ags rs →
  NoDup ags.*1 → i ∈ ags.*1 → steps_of i rs = [j].
Proof.
  induction 1 as [|x r ags rs (a & _ & ->) Hrest IH]; intros Hnd Hi.
  - by apply elem_of_nil in Hi.
  - cbn in Hnd, Hi. apply NoDup_cons in Hnd as [Hx Hnd].
    change ((j, x.1, pos a) :: rs) with ([(j, x.1, pos a)] ++ rs). rewrite steps_of_app.
    destruct (decide (x.1 = i)) as [Heq|Hne].
    + rewrite (steps_of_absent _ _ _ _ _ _ Hrest) by (by rewrite <- Heq).
      unfold steps_of. cbn. by rewrite bool_decide_true.
    + apply elem_of_cons in Hi as [?|Hi]; [congruence|].
      rewrite (IH Hnd Hi). unfold steps_of. cbn. by rewrite bool_decide_false.
Qed.

Lemma steps_of_trace (g : MultiDiGraph) (target : Z) (i : nat)
    (ags : list (nat * EvacuationAgent)) (js : list nat)
    (recs : list (nat * list record)) :
  Forall2 (λ j kv, kv.1 = j ∧ Forall2 (recorded_row g target j) ags kv.2) js recs →
  NoDup ags.*1 → i ∈ ags.*1 →
  steps_of i (concat recs.*2) = js.
Proof.
  intros Hall Hnd Hi. induction Hall as [|j kv js recs [_ Hrows] _ IH]; [done|].
  change (steps_of i (kv.2 ++ concat recs.*2) = j :: js).
  rewrite steps_of_app, IH. by rewrite (steps_of_one_step _ _ _ _ _ _ Hrows Hnd Hi).
Qed.

(** The rows of the table that a run on a fresh model returns: each sits
    under a step index below the number of steps and holds the position of
    a registered agent after as many movements as the step index says. *)
Lemma run_rows_trace (env : Env) (st : store) (a : Args)
    (m0 m : EvacuationModel) (n : Z) (df : DataFrame) :
  (EvacuationModel_init env st a).2 = Ok m0 →
  run n m0 = Ok (m, df) →
  ∀ t i p, (t, i, p) ∈ df →
    t < Z.to_nat n ∧
    ∃ a0 at_t, dict_get i (agents (schedule m0)) = Some a0 ∧
               advance_n (G m0) (target_node m0) t a0 = Ok at_t ∧
               pos at_t = p.
Proof.
  intros Hinit Hrun.
  destruct (EvacuationModel_init_fresh _ _ _ _ Hinit)
    as (locs & hz & _ & _ & _ & Hst & Hdc & Hkeys & Hags & _).
  assert (Hnd : NoDup (agents (schedule m0)).*1) by (rewrite Hkeys; apply NoDup_seq).
  unfold run in Hrun. apply bind_Ok_inv in Hrun as (m' & Hloop & [= -> <-]).
  apply step_loop_trace in Hloop as (_ & _ & _ & _ & _ & Hrec); try done;
    [|eapply Forall_impl; [exact Hags|]; by intros x [? _]].
  intros t i p Hin. unfold get_agent_vars_dataframe in Hin.
  apply list_elem_of_In, in_concat in Hin as (rs & Hrs & Hin).
  apply list_elem_of_In, list_elem_of_fmap in Hrs as (kv & -> & Hkv).
  destruct (Forall2_elem_of_r _ _ _ _ Hrec Hkv) as (j & Hj & _ & Hrows).
  apply list_elem_of_In in Hin.
  destruct (Forall2_elem_of_r _ _ _ _ Hrows Hin) as (x & Hx & at_t & Hadv & [= -> -> ->]).
  apply elem_of_seq in Hj. split; [lia|].
  exists x.2, at_t. split; [|done].
  apply dict_get_NoDup; [done|]. by destruct x.
Qed.

(** C5 (as the code has it): [step()] writes the rows of the agents as they
    stand before the activation, keyed by the step counter before the
    activation, which starts at 0.  So in the table returned by a run on a
    fresh model a row under step index [t] holds the position of its agent
    after exactly [t] movements: the initial placement for [t = 0]. *)
Theorem step_records_then_activates (env : Env) (st : store) (a : Args)
    (m0 m : EvacuationModel) (n : Z) (df : DataFrame) :
  (EvacuationModel_init env st a).2 = Ok m0 →
  run n m0 = Ok (m, df) →
  (∀ m1 m2, step m1 = Ok m2 →
     dict_get (steps (schedule m1)) (agent_records (data_collector m2)) =
       Some ((λ x, (steps (schedule m1), unique_id x.2, pos x.2)) <$> agents (schedule m1))) ∧
  (∀ t i p, (t, i, p) ∈ df →
     t < Z.to_nat n ∧
     ∃ a0 at_t, dict_get i (agents (schedule m0)) = Some a0 ∧
                advance_n (G m0) (target_node m0) t a0 = Ok at_t ∧
                pos at_t = p).
Proof.
  intros Hinit Hrun. split; [|by eapply run_rows_trace].
  intros m1 m2 Hstep. unfold step in Hstep.
  apply bind_Ok_inv in Hstep as (dc & Hdc & Hstep).
  unfold collect in Hdc. apply bind_Ok_inv in Hdc as (occ & _ & Hdc). injection Hdc as <-.
  unfold schedule_step in Hstep.
  apply bind_Ok_inv in Hstep as (s & _ & Hstep). injection Hstep as <-. cbn.
  apply dict_get_set_eq.
Qed.

(** ** Runs that return *)

Lemma list_remove_Some (x : nat) (l : list nat) :
  x ∈ l → ∃ l', list_remove x l = Some l' ∧ ∀ y, y ≠ x → y ∈ l → y ∈ l'.
Proof.
  induction l as [|z l IH]; intros Hx; [by apply elem_of_nil in Hx|]. cbn.
  case_decide as Hd.
  - subst z. exists l. split; [done|]. intros y Hy Hin.
    apply elem_of_cons in Hin as [?|?]; done.
  - apply elem_of_cons in Hx as [?|Hx]; [done|].
    destruct (IH Hx) as (l' & -> & Hl'). exists (z :: l'). split; [done|].
    intros y Hy Hin. apply elem_of_cons in Hin as [->|Hin].
    + apply list_elem_of_here.
    + apply list_elem_of_further. auto.
Qed.

(** Moving an agent that is listed on its old node to a node of the grid
    succeeds: the agent is then listed on the new node, and every other
    agent stays listed where it was. *)
Lemma move_agent_returns (gr : gmap Z (list nat)) (u : nat) (old new : Z) (l : list nat) :
  gr !! old = Some l → u ∈ l → is_Some (gr !! new) →
  ∃ gr', move_agent gr u old new = Ok gr' ∧
         (∃ l', gr' !! new = Some l' ∧ u ∈ l') ∧
         (∀ p lp k, gr !! p = Some lp → k ∈ lp → k ≠ u →
                    ∃ lp', gr' !! p = Some lp' ∧ k ∈ lp') ∧
         (∀ p, is_Some (gr !! p) → is_Some (gr' !! p)).
Proof.
  intros Hold Hu [ln Hnew].
  destruct (list_remove_Some u l Hu) as (l' & Hrm & Hl').
  unfold move_agent, remove_agent, place_agent. rewrite Hold. cbn. rewrite Hrm. cbn.
  assert (Hl2 : ∃ l2, <[old := l']> gr !! new = Some l2 ∧
                      ∀ k, k ≠ u → k ∈ ln → k ∈ l2).
  { rewrite lookup_insert. case_decide as Hd.
    - subst new. exists l'. split; [done|]. intros k Hk Hin.
      rewrite Hold in Hnew. injection Hnew as <-. auto.
    - exists ln. by split. }
  destruct Hl2 as (l2 & -> & Hl2). cbn. eexists. split; [done|].
  split; [|split].
  - eexists. rewrite lookup_insert_eq. split; [done|].
    apply elem_of_app. right. apply list_elem_of_here.
  - intros p lp k Hp Hk Hne. rewrite lookup_insert. case_decide as Hd.
    + subst p. eexists. split; [done|]. apply elem_of_app. left.
      rewrite Hnew in Hp. injection Hp as <-. auto.
    + rewrite lookup_insert. case_decide as Hd'.
      * subst p. exists l'. split; [done|].
        rewrite Hold in Hp. injection Hp as <-. auto.
      * eauto.
  - intros p Hp. rewrite lookup_insert_is_Some'. right.
    rewrite lookup_insert_is_Some'. by right.
Qed.

(** An activation on a state in order succeeds and leaves it in order. *)
Lemma activate_returns (g : MultiDiGraph) (target : Z) (I : EvacuationAgent → Prop)
    (key : nat) (ags : list (nat * EvacuationAgent)) (gr : gmap Z (list nat)) :
  well_behaved g target I →
  NoDup ags.*1 →
  Forall (agent_ok I gr) ags →
  (∀ p, p ∈ (graph_nodes g).*1 → is_Some (gr !! p)) →
  ∃ ags' gr', activate g target key (ags, gr) = Ok (ags', gr') ∧
              ags'.*1 = ags.*1 ∧
              Forall (agent_ok I gr') ags' ∧
              (∀ p, p ∈ (graph_nodes g).*1 → is_Some (gr' !! p)).
Proof.
  intros Hwb Hnd Hok Hcov. unfold activate. cbn [fst snd].
  destruct (dict_get key ags) as [a|] eqn:Hget; [|by exists ags, gr].
  pose proof (dict_get_Some_elem _ _ _ Hget) as Hin.
  pose proof (proj1 (Forall_forall _ _) Hok _ Hin) as (Huid & HI & l & Hl & Hkl).
  cbn in Huid, HI, Hl, Hkl.
  destruct (Hwb a HI) as (a' & Hadv & HI' & Hpos').
  unfold advance in Hadv. apply bind_Ok_inv in Hadv as (pn & Hpn & Ha').
  injection Ha' as <-. cbn in Hpos'. rewrite Hpn. cbn.
  set (a' := {| unique_id := unique_id a; pos := pn.1; route := pn.2 |}) in *.
  pose proof (dict_set_Forall2 key a a' ags Hnd Hget) as Hset.
  pose proof (Forall2_keys _ _ _ Hset) as Hkeys.
  case_decide as Hmove.
  - exists (dict_set key a' ags), gr. cbn. split; [done|]. split; [done|]. split; [|done].
    eapply Forall2_Forall_r; [exact Hset|].
    eapply Forall_impl; [exact Hok|]. intros x (Hxu & HxI & Hxl) y [Hy Hxy]. cbn in Hxy.
    unfold agent_ok. case_decide.
    + destruct Hxy as [Hxa Hya]. rewrite Hya, Hy. cbn. rewrite Hmove.
      rewrite Hxa in Hxu, Hxl. by eauto.
    + rewrite Hxy, Hy. by eauto.
  - destruct (move_agent_returns gr (unique_id a) (pos a) pn.1 l Hl)
      as (gr' & -> & (l' & Hl' & Hul') & Hothers & Hmono).
    { by rewrite Huid. }
    { by apply Hcov. }
    exists (dict_set key a' ags), gr'. cbn. split; [done|]. split; [done|]. split.
    + eapply Forall2_Forall_r; [exact Hset|].
      eapply Forall_impl; [exact Hok|].
      intros x (Hxu & HxI & lx & Hlx & Hkx) y [Hy Hxy]. cbn in Hxy.
      unfold agent_ok. case_decide as Hk.
      * destruct Hxy as [Hxa Hya]. rewrite Hya, Hy, Hk. cbn.
        split; [done|]. split; [done|].
        exists l'. by rewrite <- Huid.
      * rewrite Hxy, Hy. split; [done|]. split; [done|].
        eapply Hothers; [exact Hlx | exact Hkx |]. by rewrite Huid.
    + intros p Hp. by apply Hmono, Hcov.
Qed.

Lemma activate_all_returns (g : MultiDiGraph) (target : Z) (I : EvacuationAgent → Prop)
    (keys : list nat) (ags : list (nat * EvacuationAgent)) (gr : gmap Z (list nat)) :
  well_behaved g target I →
  NoDup ags.*1 →
  Forall (agent_ok I gr) ags →
  (∀ p, p ∈ (graph_nodes g).*1 → is_Some (gr !! p)) →
  ∃ ags' gr', activate_all g target keys (ags, gr) = Ok (ags', gr') ∧
              ags'.*1 = ags.*1 ∧
              Forall (agent_ok I gr') ags' ∧
              (∀ p, p ∈ (graph_nodes g).*1 → is_Some (gr' !! p)).
Proof.
  intros Hwb. revert ags gr. induction keys as [|key keys IH]; intros ags gr Hnd Hok Hcov.
  - by exists ags, gr.
  - destruct (activate_returns g target I key ags gr Hwb Hnd Hok Hcov)
      as (ags1 & gr1 & Hact & Hkeys1 & Hok1 & Hcov1).
    destruct (IH ags1 gr1) as (ags' & gr' & Hall & Hkeys' & Hok' & Hcov'); try done.
    { by rewrite Hkeys1. }
    exists ags', gr'. cbn. rewrite Hact. cbn. split; [done|]. split; [congruence|]. done.
Qed.

(** A step on a model in order succeeds and leaves it in order. *)
Lemma step_returns (I : EvacuationAgent → Prop) (m : EvacuationModel) :
  well_behaved (G m) (target_node m) I →
  model_ok I m →
  ∃ m', step m = Ok m' ∧ model_ok I m' ∧ G m' = G m ∧ target_node m' = target_node m.
Proof.
  intros Hwb (Hnd & Hok & Hcov & Ht).
  destruct (Hcov _ Ht) as [occ Hocc].
  destruct (activate_all_returns (G m) (target_node m) I
              (shuffle (random m) (agents (schedule m)).*1).1
              (agents (schedule m)) (grid m) Hwb Hnd Hok Hcov)
    as (ags' & gr' & Hact & Hkeys & Hok' & Hcov').
  unfold step, collect. rewrite Hocc. cbn. unfold schedule_step. cbn. rewrite Hact. cbn.
  eexists. split; [done|]. unfold model_ok. cbn. by rewrite Hkeys.
Qed.

Lemma step_loop_returns (I : EvacuationAgent → Prop) (n : nat) (m : EvacuationModel) :
  well_behaved (G m) (target_node m) I →
  model_ok I m →
  ∃ m', step_loop n m = Ok m'.
Proof.
  revert m. induction n as [|n IH]; intros m Hwb Hok; [by exists m|].
  destruct (step_returns I m Hwb Hok) as (m1 & Hstep & Hok1 & HG & Ht).
  cbn. rewrite Hstep. cbn. apply IH; [|done]. by rewrite HG, Ht.
Qed.

(** The placement loop lists every agent it creates on the node it puts
    the agent on, and keeps the earlier agents listed. *)
Lemma create_agents_grid (g : MultiDiGraph) (target : Z) (index : list Z)
    (node_idx : list nat) (i : nat) (s s' : RandomActivation) (gr gr' : gmap Z (list nat)) :
  create_agents g target index i node_idx s gr = Ok (s', gr') →
  (∀ k, k ∈ (agents s).*1 → k < i) →
  Forall (λ ka, ∃ l, gr !! pos ka.2 = Some l ∧ ka.1 ∈ l) (agents s) →
  Forall (λ ka, ∃ l, gr' !! pos ka.2 = Some l ∧ ka.1 ∈ l) (agents s') ∧
  (∀ p, is_Some (gr !! p) → is_Some (gr' !! p)).
Proof.
  revert i s gr. induction node_idx as [|idx node_idx IH]; intros i s gr; cbn.
  - intros [= <- <-] _ Hs. by split.
  - intros H Hlt Hs.
    apply bind_Ok_inv in H as (node & Hnode & H).
    apply bind_Ok_inv in H as (gr1 & Hgr1 & H).
    apply bind_Ok_inv in H as (rt & Hrt & H).
    apply place_agent_lookup in Hgr1 as (l & Hl & ->).
    assert (Hfresh : i ∉ (agents s).*1) by (intros Hi; apply Hlt in Hi; lia).
    apply IH in H as [Hall Hmono].
    + split; [done|]. intros p Hp. apply Hmono. rewrite lookup_insert_is_Some'. by right.
    + cbn. rewrite dict_set_keys_new by done. rewrite fmap_app. cbn.
      intros k Hk. apply elem_of_app in Hk as [Hk|Hk].
      * apply Hlt in Hk. lia.
      * apply list_elem_of_singleton in Hk. lia.
    + cbn. rewrite dict_set_keys_new by done. apply Forall_app. split.
      * eapply Forall_impl; [exact Hs|]. intros ka (l0 & Hl0 & Hk).
        rewrite lookup_insert. case_decide as Hd; [|by eauto].
        eexists. split; [done|]. apply elem_of_app. left.
        rewrite Hd, Hl0 in Hl. by injection Hl as <-.
      * constructor; [|constructor]. cbn. eexists. rewrite lookup_insert_eq. split; [done|].
        apply elem_of_app. right. apply list_elem_of_here.
Qed.

Lemma NetworkGrid_init_is_Some (g : MultiDiGraph) (p : Z) :
  p ∈ (graph_nodes g).*1 → is_Some (NetworkGrid_init g !! p).
Proof.
  intros Hp. unfold NetworkGrid_init.
  destruct (list_to_map _ !! p) eqn:Hnone; [by eauto|].
  apply not_elem_of_list_to_map_2 in Hnone. exfalso. apply Hnone.
  rewrite <- list_fmap_compose. clear Hnone.
  induction (graph_nodes g).*1 as [|x xs IH]; [by apply elem_of_nil in Hp|]. cbn.
  apply elem_of_cons in Hp as [->|Hp]; [apply list_elem_of_here|].
  apply list_elem_of_further. auto.
Qed.

(** A freshly constructed model is in order as soon as its target is a
    node and the routed agents are in states of [I]. *)
Lemma EvacuationModel_init_ok (env : Env) (st : store) (a : Args) (m : EvacuationModel)
    (I : EvacuationAgent → Prop) :
  (EvacuationModel_init env st a).2 = Ok m →
  target_node m ∈ (graph_nodes (G m)).*1 →
  Forall (λ ka, I ka.2) (agents (schedule m)) →
  model_ok I m.
Proof.
  intros Hinit Ht HI.
  destruct (EvacuationModel_init_fresh _ _ _ _ Hinit)
    as (locs & hz & _ & _ & _ & _ & _ & Hkeys & Hags & _).
  apply EvacuationModel_init_Ok in Hinit
    as (g & _ & _ & qs & tr & [s gr] & _ & _ & _ & _ & _ & Hsg & ->).
  apply create_agents_grid in Hsg as [Hgrid Hmono];
    [|cbn; intros k Hk; by apply elem_of_nil in Hk | constructor].
  cbn in *. unfold model_ok. cbn. split; [rewrite Hkeys; apply NoDup_seq|].
  split; [|split; [|done]].
  - apply Forall_forall. intros ka Hka. unfold agent_ok.
    pose proof (proj1 (Forall_forall _ _) Hags _ Hka) as [Hu _].
    pose proof (proj1 (Forall_forall _ _) HI _ Hka) as HIa.
    pose proof (proj1 (Forall_forall _ _) Hgrid _ Hka) as Hl.
    done.
  - intros p Hp. by apply Hmono, NetworkGrid_init_is_Some.
Qed.

(** C6: on a fresh model and for [steps] not negative, a [run(steps)] that
    returns has run [step()] [steps] times in a row (the loop, the step
    counter and the length of the model-level series agree), its result is
    the table of the collector, and in it every registered agent appears
    under the step indices 0, 1, ..., [steps - 1], once each, and every row
    belongs to a registered agent.  And [run(steps)] does return when the
    target is a node and the collaborator is well behaved. *)
Theorem run_records_every_agent_each_step (env : Env) (st : store) (a : Args)
    (m0 : EvacuationModel) (n : Z) :
  (EvacuationModel_init env st a).2 = Ok m0 →
  (0 ≤ n)%Z →
  (∀ m df, run n m0 = Ok (m, df) →
     step_loop (Z.to_nat n) m0 = Ok m ∧
     Z.of_nat (steps (schedule m)) = n ∧
     Z.of_nat (length (model_vars (data_collector m))) = n ∧
     df = get_agent_vars_dataframe (data_collector m) ∧
     (∀ i, i ∈ (agents (schedule m0)).*1 → steps_of i df = seq 0 (Z.to_nat n)) ∧
     (∀ r, r ∈ df → r.1.2 ∈ (agents (schedule m0)).*1)) ∧
  (∀ I : EvacuationAgent → Prop,
     target_node m0 ∈ (graph_nodes (G m0)).*1 →
     well_behaved (G m0) (target_node m0) I →
     Forall (λ ka, I ka.2) (agents (schedule m0)) →
     ∃ m df, run n m0 = Ok (m, df)).
Proof.
  intros Hinit Hn. split.
  - intros m df Hrun.
    destruct (EvacuationModel_init_fresh _ _ _ _ Hinit)
      as (locs & hz & _ & _ & _ & Hst & Hdc & Hkeys & Hags & _).
    assert (Hnd : NoDup (agents (schedule m0)).*1) by (rewrite Hkeys; apply NoDup_seq).
    pose proof (run_rows_trace _ _ _ _ _ _ _ Hinit Hrun) as Hrow.
    unfold run in Hrun. apply bind_Ok_inv in Hrun as (m' & Hloop & [= -> <-]).
    split; [done|].
    apply step_loop_trace in Hloop as (Hsteps & _ & _ & _ & Hmv & Hrec); try done;
      [|eapply Forall_impl; [exact Hags|]; by intros x [? _]].
    split; [lia|]. split; [lia|]. split; [done|]. split.
    + intros i Hi. unfold get_agent_vars_dataframe. by eapply steps_of_trace.
    + intros [[t i] p] Hin.
      destruct (Hrow t i p Hin) as (_ & a0 & _ & Hget & _). cbn.
      apply dict_get_Some_elem in Hget. apply list_elem_of_fmap. by exists (i, a0).
  - intros I Ht Hwb HI.
    pose proof (EvacuationModel_init_ok _ _ _ _ I Hinit Ht HI) as Hok.
    destruct (step_loop_returns I (Z.to_nat n) m0 Hwb Hok) as [m Hm].
    unfold run. rewrite Hm. cbn. by eauto.
Qed.

(** ** What construction and steps maintain *)

Lemma dict_split {V} (k : nat) (v : V) (d : list (nat * V)) :
  dict_get k d = Some v →
  ∃ pre post, d = pre ++ (k, v) :: post ∧
              ∀ v', dict_set k v' d = pre ++ (k, v') :: post.
Proof.
  induction d as [|[k0 v0] d IH]; cbn; [done|].
  case_decide as Hd.
  - intros [= ->]. subst k0. by exists [], d.
  - intros Hget. destruct (IH Hget) as (pre & post & -> & Hset).
    exists ((k0, v0) :: pre), post. split; [done|]. intros v'.
    by rewrite Hset.
Qed.

Lemma occupants_of_split (pre post : list (nat * EvacuationAgent)) (k : nat)
    (a : EvacuationAgent) (p : Z) :
  occupants_of (pre ++ (k, a) :: post) p =
    occupants_of pre p ++ (if bool_decide (pos a = p) then [k] else []) ++ occupants_of post p.
Proof.
  unfold occupants_of. rewrite List.filter_app, fmap_app. cbn.
  by destruct (bool_decide (pos a = p)).
Qed.

Lemma list_remove_Permutation (x : nat) (l l' : list nat) :
  list_remove x l = Some l' → l ≡ₚ x :: l'.
Proof.
  revert l'. induction l as [|y l IH]; intros l'; cbn; [done|].
  case_decide as Hd.
  - intros [= ->]. by subst y.
  - destruct (list_remove x l) as [l0|] eqn:Hrm; cbn; [|done].
    intros [= <-]. rewrite (IH l0 eq_refl). apply Permutation_swap.
Qed.

(** An activation that succeeds keeps the agents under their keys and on
    nodes, and keeps the grid listing every agent once where it stands. *)
Lemma activate_sound (g : MultiDiGraph) (target : Z) (N : list Z) (key : nat)
    (ags ags' : list (nat * EvacuationAgent)) (gr gr' : gmap Z (list nat)) :
  Forall (λ ka, unique_id ka.2 = ka.1 ∧ pos ka.2 ∈ N) ags →
  (∀ p l, gr !! p = Some l → l ≡ₚ occupants_of ags p) →
  (∀ p, is_Some (gr !! p) ↔ p ∈ N) →
  activate g target key (ags, gr) = Ok (ags', gr') →
  ags'.*1 = ags.*1 ∧
  Forall (λ ka, unique_id ka.2 = ka.1 ∧ pos ka.2 ∈ N) ags' ∧
  (∀ p l, gr' !! p = Some l → l ≡ₚ occupants_of ags' p) ∧
  (∀ p, is_Some (gr' !! p) ↔ p ∈ N).
Proof.
  intros Hags Hgrid Hdom. unfold activate. cbn [fst snd].
  destruct (dict_get key ags) as [a|] eqn:Hget; [|by intros [= <- <-]].
  intros H. apply bind_Ok_inv in H as (pn & Hpn & H).
  apply bind_Ok_inv in H as (gr1 & Hgr1 & H). injection H as <- <-.
  destruct (dict_split _ _ _ Hget) as (pre & post & -> & Hset). rewrite Hset.
  apply Forall_app in Hags as [Hpre Hrest].
  apply Forall_cons in Hrest as [[Huid Hpos] Hpost]. cbn in Huid, Hpos.
  split; [by rewrite !fmap_app|].
  case_decide as Hmove.
  - injection Hgr1 as <-. split; [|split; [|done]].
    + apply Forall_app. split; [done|]. apply Forall_cons. split; [|done].
      cbn. by rewrite Hmove.
    + intros p l Hl. rewrite occupants_of_split. cbn. rewrite Hmove.
      rewrite <- occupants_of_split. by apply Hgrid.
  - unfold move_agent in Hgr1.
    apply bind_Ok_inv in Hgr1 as (g1 & Hrem & Hplace).
    unfold remove_agent in Hrem.
    apply bind_Ok_inv in Hrem as (l & Hl & Hrem). apply getitem_Ok_inv in Hl.
    apply bind_Ok_inv in Hrem as (l' & Hl' & Hrem). apply getitem_Ok_inv in Hl'.
    injection Hrem as <-.
    apply place_agent_lookup in Hplace as (l2 & Hl2 & ->).
    rewrite lookup_insert_ne in Hl2 by done.
    assert (Hnew : pn.1 ∈ N) by (apply Hdom; eauto).
    apply list_remove_Permutation in Hl'. rewrite Huid in Hl'.
    pose proof (Hgrid _ _ Hl) as Hold. pose proof (Hgrid _ _ Hl2) as Hnw.
    rewrite occupants_of_split in Hold, Hnw.
    rewrite bool_decide_true in Hold by done.
    rewrite bool_decide_false in Hnw by done. cbn in Hold, Hnw.
    split; [|split].
    + apply Forall_app. split; [done|]. apply Forall_cons. by split.
    + intros p lp. rewrite occupants_of_split. cbn. rewrite lookup_insert.
      case_decide as Hp.
      * intros [= <-]. subst p. rewrite bool_decide_true by done.
        rewrite Huid, Hnw. cbn. rewrite (Permutation_app_comm _ [key]). cbn.
        apply Permutation_middle.
      * rewrite bool_decide_false by done. cbn. rewrite lookup_insert.
        case_decide as Hp'.
        -- intros [= <-]. subst p. rewrite Hl' in Hold.
           rewrite <- Permutation_middle in Hold. by apply (inj (cons key)) in Hold.
        -- intros Hlp. apply Hgrid in Hlp. rewrite occupants_of_split in Hlp.
           by rewrite bool_decide_false in Hlp by done.
    + intros p. rewrite <- Hdom, !lookup_insert_is_Some'. split; [|by auto].
      intros [<-|[<-|Hp]]; eauto.
Qed.

Lemma activate_all_sound (g : MultiDiGraph) (target : Z) (N : list Z) (keys : list nat)
    (ags ags' : list (nat * EvacuationAgent)) (gr gr' : gmap Z (list nat)) :
  Forall (λ ka, unique_id ka.2 = ka.1 ∧ pos ka.2 ∈ N) ags →
  (∀ p l, gr !! p = Some l → l ≡ₚ occupants_of ags p) →
  (∀ p, is_Some (gr !! p) ↔ p ∈ N) →
  activate_all g target keys (ags, gr) = Ok (ags', gr') →
  ags'.*1 = ags.*1 ∧
  Forall (λ ka, unique_id ka.2 = ka.1 ∧ pos ka.2 ∈ N) ags' ∧
  (∀ p l, gr' !! p = Some l → l ≡ₚ occupants_of ags' p) ∧
  (∀ p, is_Some (gr' !! p) ↔ p ∈ N).
Proof.
  revert ags gr. induction keys as [|key keys IH]; intros ags gr Hags Hgrid Hdom; cbn.
  - by intros [= <- <-].
  - intros H. apply bind_Ok_inv in H as ([ags1 gr1] & H1 & H).
    apply (activate_sound _ _ N) in H1 as (Hk1 & Hags1 & Hgrid1 & Hdom1); try done.
    apply IH in H as (Hk & ? & ? & ?); try done.
    split; [congruence|done].
Qed.

Lemma rows_on_batch (t : nat) (p : Z) (ags : list (nat * EvacuationAgent)) :
  length (rows_on p ((λ a, (t, unique_id a.2, pos a.2)) <$> ags)) =
  length (occupants_of ags p).
Proof.
  unfold rows_on, occupants_of. induction ags as [|[k a] ags IH]; cbn; [done|].
  destruct (bool_decide (pos a = p)); cbn; by rewrite ?IH.
Qed.

Lemma batch_index (t : nat) (N : list Z) (ags : list (nat * EvacuationAgent)) :
  Forall (λ ka, unique_id ka.2 = ka.1 ∧ pos ka.2 ∈ N) ags →
  ((λ a, (t, unique_id a.2, pos a.2)) <$> ags).*1 = (λ i, (t, i)) <$> ags.*1 ∧
  Forall (λ r : record, r.2 ∈ N) ((λ a, (t, unique_id a.2, pos a.2)) <$> ags).
Proof.
  induction 1 as [|[k a] ags [Hu Hp] _ [IH1 IH2]]; cbn; [done|].
  cbn in Hu, Hp. rewrite Hu, IH1. split; [done|]. by constructor.
Qed.

(** A step that succeeds on a sound model leaves a sound model; it keeps
    the graph, the node frame, the target and the registered keys, adds one
    to the step counter and appends one batch of rows and one value of the
    model-level series. *)
Lemma step_sound (m m' : EvacuationModel) :
  sound m →
  step m = Ok m' →
  sound m' ∧
  G m' = G m ∧ nodes m' = nodes m ∧ target_node m' = target_node m ∧
  (agents (schedule m')).*1 = (agents (schedule m)).*1 ∧
  steps (schedule m') = S (steps (schedule m)) ∧
  agent_records (data_collector m') =
    agent_records (data_collector m) ++
      [(steps (schedule m),
        (λ a, (steps (schedule m), unique_id a.2, pos a.2)) <$> agents (schedule m))] ∧
  model_vars (data_collector m') =
    model_vars (data_collector m) ++
      [length (occupants_of (agents (schedule m)) (target_node m))].
Proof.
  intros (Hags & Hgrid & Hdom & Hkeys & Hbatch & Hsync) Hstep.
  unfold step in Hstep. apply bind_Ok_inv in Hstep as (dc & Hdc & Hstep).
  unfold collect in Hdc. apply bind_Ok_inv in Hdc as (occ & Hocc & Hdc).
  apply getitem_Ok_inv in Hocc. injection Hdc as <-.
  unfold schedule_step in Hstep.
  apply bind_Ok_inv in Hstep as ([ags' gr'] & Hact & Hstep). injection Hstep as <-.
  cbn in Hact.
  apply (activate_all_sound _ _ (graph_nodes (G m)).*1) in Hact
    as (Hk' & Hags' & Hgrid' & Hdom'); try done.
  assert (Hfresh : steps (schedule m) ∉ (agent_records (data_collector m)).*1).
  { rewrite Hkeys, elem_of_seq. lia. }
  pose proof (batch_index (steps (schedule m)) _ _ Hags) as [Hb1 Hb2].
  pose proof (Hgrid _ _ Hocc) as Hperm.
  unfold sound. cbn. rewrite dict_set_keys_new by done.
  split; [|repeat split; try done; f_equal; f_equal; by rewrite Hperm].
  do 3 (split; [done|]). split; [|split].
  - change (0 :: seq 1 (steps (schedule m))) with (seq 0 (S (steps (schedule m)))).
    by rewrite seq_S, fmap_app, Hkeys.
  - apply Forall_app. split.
    + eapply Forall_impl; [exact Hbatch|]. intros kv [H1 H2]. by rewrite Hk'.
    + constructor; [|constructor]. cbn. by rewrite Hk'.
  - apply Forall2_app; [done|]. constructor; [|constructor]. cbn.
    rewrite Hperm. symmetry. apply rows_on_batch.
Qed.

Lemma step_loop_sound (n : nat) (m m' : EvacuationModel) :
  sound m →
  step_loop n m = Ok m' →
  sound m' ∧
  G m' = G m ∧ nodes m' = nodes m ∧ target_node m' = target_node m ∧
  (agents (schedule m')).*1 = (agents (schedule m)).*1 ∧
  steps (schedule m') = steps (schedule m) + n ∧
  (∃ more, agent_records (data_collector m') = agent_records (data_collector m) ++ more) ∧
  (∃ more, model_vars (data_collector m') = model_vars (data_collector m) ++ more).
Proof.
  revert m. induction n as [|n IH]; intros m Hs; cbn.
  - intros [= <-]. split; [done|]. do 4 (split; [done|]). split; [lia|].
    split; exists []; by rewrite app_nil_r.
  - intros H. apply bind_Ok_inv in H as (m1 & Hstep & H).
    apply step_sound in Hstep as (Hs1 & HG & HN & Ht & Hk & Hst & Hrec & Hmv); [|done].
    apply IH in H as (Hs' & HG' & HN' & Ht' & Hk' & Hst' & [r Hrec'] & [v Hmv']); [|done].
    split; [done|]. do 4 (split; [congruence|]). split; [lia|]. split.
    + eexists. by rewrite Hrec', Hrec, <- app_assoc.
    + eexists. by rewrite Hmv', Hmv, <- app_assoc.
Qed.

(** The placement loop lists the agents on every node in the order in
    which it creates them. *)
Lemma create_agents_occupants (g : MultiDiGraph) (target : Z) (index : list Z)
    (node_idx : list nat) (i : nat) (s s' : RandomActivation) (gr gr' : gmap Z (list nat)) :
  create_agents g target index i node_idx s gr = Ok (s', gr') →
  (∀ k, k ∈ (agents s).*1 → k < i) →
  (∀ p l, gr !! p = Some l → l = occupants_of (agents s) p) →
  ∀ p l, gr' !! p = Some l → l = occupants_of (agents s') p.
Proof.
  revert i s gr. induction node_idx as [|idx node_idx IH]; intros i s gr; cbn.
  - by intros [= <- <-] _ Hs.
  - intros H Hlt Hs.
    apply bind_Ok_inv in H as (node & Hnode & H).
    apply bind_Ok_inv in H as (gr1 & Hgr1 & H).
    apply bind_Ok_inv in H as (rt & Hrt & H).
    apply place_agent_lookup in Hgr1 as (l0 & Hl0 & ->).
    assert (Hfresh : i ∉ (agents s).*1) by (intros Hi; apply Hlt in Hi; lia).
    eapply IH; [exact H| |].
    + cbn. rewrite dict_set_keys_new by done. rewrite fmap_app. cbn.
      intros k Hk. apply elem_of_app in Hk as [Hk|Hk].
      * apply Hlt in Hk. lia.
      * apply list_elem_of_singleton in Hk. lia.
    + unfold schedule_add. cbn [agents unique_id].
      rewrite dict_set_keys_new by done. intros p l.
      rewrite occupants_of_split. cbn [pos]. rewrite lookup_insert. case_decide as Hp.
      * intros [= <-]. subst p. rewrite bool_decide_true by done.
        by rewrite (Hs _ _ Hl0).
      * rewrite bool_decide_false by done. cbn [app]. rewrite app_nil_r. apply Hs.
Qed.

Lemma NetworkGrid_init_empty (g : MultiDiGraph) (p : Z) (l : list nat) :
  NetworkGrid_init g !! p = Some l → l = [].
Proof.
  unfold NetworkGrid_init. intros H. apply elem_of_list_to_map_2 in H.
  apply list_elem_of_fmap in H as (n & [= _ ->] & _). done.
Qed.

(** A freshly constructed model is sound. *)
Lemma EvacuationModel_init_sound (env : Env) (st : store) (a : Args) (m : EvacuationModel) :
  (EvacuationModel_init env st a).2 = Ok m → sound m.
Proof.
  intros Hinit.
  destruct (EvacuationModel_init_fresh _ _ _ _ Hinit)
    as (locs & hz & _ & _ & _ & Hst & Hdc & Hkeys & Hags & Hnone & _).
  apply EvacuationModel_init_Ok in Hinit
    as (g & _ & _ & qs & tr & [s gr] & _ & _ & _ & _ & _ & Hsg & ->).
  assert (Hocc : ∀ p l, gr !! p = Some l → l = occupants_of (agents s) p).
  { eapply create_agents_occupants; [exact Hsg | |].
    - intros k Hk. by apply elem_of_nil in Hk.
    - intros p' l' Hl'. by apply NetworkGrid_init_empty in Hl'. }
  cbn in *. unfold sound. cbn. rewrite Hst. cbn.
  split; [done|]. split; [|split; [|done]].
  - intros p l Hl. by rewrite (Hocc _ _ Hl).
  - intros p. split.
    + intros Hp. destruct (decide (p ∈ (graph_nodes g).*1)) as [|Hn]; [done|].
      apply Hnone in Hn. rewrite Hn in Hp. by destruct Hp.
    + intros Hp. destruct (create_agents_grid _ _ _ _ _ _ _ _ _ Hsg) as [_ Hmono];
        [intros k Hk; by apply elem_of_nil in Hk | constructor |].
      by apply Hmono, NetworkGrid_init_is_Some.
Qed.

(** ** Runs on a constructed model *)

Lemma run_sound (env : Env) (st : store) (a : Args) (m0 m : EvacuationModel)
    (n : Z) (df : DataFrame) :
  (EvacuationModel_init env st a).2 = Ok m0 →
  run n m0 = Ok (m, df) →
  sound m ∧
  G m = G m0 ∧ nodes m = nodes m0 ∧ target_node m = target_node m0 ∧
  (agents (schedule m)).*1 = seq 0 (length (agents (schedule m0))) ∧
  steps (schedule m) = Z.to_nat n ∧
  df = concat (agent_records (data_collector m)).*2.
Proof.
  intros Hinit Hrun.
  pose proof (EvacuationModel_init_sound _ _ _ _ Hinit) as Hs0.
  destruct (EvacuationModel_init_fresh _ _ _ _ Hinit)
    as (locs & hz & _ & _ & _ & Hst & _ & Hkeys & _).
  unfold run in Hrun. apply bind_Ok_inv in Hrun as (m' & Hloop & [= -> <-]).
  apply step_loop_sound in Hloop as (Hs & HG & HN & Ht & Hk & Hsteps & _); [|done].
  split; [done|]. do 3 (split; [done|]). split; [|split; [lia|done]].
  rewrite Hk. rewrite <- (length_fmap fst), Hkeys. by rewrite length_seq.
Qed.

Lemma rows_at_app (t : nat) (df1 df2 : DataFrame) :
  rows_at t (df1 ++ df2) = rows_at t df1 ++ rows_at t df2.
Proof. unfold rows_at. apply List.filter_app. Qed.

Lemma rows_at_same (t : nat) (rs : list record) :
  Forall (λ r : record, r.1.1 = t) rs → rows_at t rs = rs.
Proof.
  unfold rows_at. induction 1 as [|r rs Hr _ IH]; cbn; [done|].
  by rewrite bool_decide_true, IH.
Qed.

Lemma rows_at_other (t k : nat) (rs : list record) :
  Forall (λ r : record, r.1.1 = k) rs → k ≠ t → rows_at t rs = [].
Proof.
  unfold rows_at. induction 1 as [|r rs Hr _ IH]; cbn; intros Hne; [done|].
  rewrite bool_decide_false by congruence. by apply IH.
Qed.

Lemma rows_at_absent (t : nat) (recs : list (nat * list record)) :
  Forall (λ kv, Forall (λ r : record, r.1.1 = kv.1) kv.2) recs →
  t ∉ recs.*1 → rows_at t (concat recs.*2) = [].
Proof.
  induction 1 as [|kv recs Hkv _ IH]; intros Ht; [done|].
  apply not_elem_of_cons in Ht as [Hne Ht].
  change (rows_at t (kv.2 ++ concat recs.*2) = []).
  rewrite rows_at_app, (rows_at_other t kv.1), IH by done. done.
Qed.

(** In a collector whose batches are keyed by distinct steps, the rows of
    a step are the batch stored under it. *)
Lemma rows_at_records (recs : list (nat * list record)) (kv : nat * list record) :
  NoDup recs.*1 →
  Forall (λ kv, Forall (λ r : record, r.1.1 = kv.1) kv.2) recs →
  kv ∈ recs →
  rows_at kv.1 (concat recs.*2) = kv.2.
Proof.
  induction recs as [|kv0 recs IH]; intros Hnd Hall Hin; [by apply elem_of_nil in Hin|].
  cbn in Hnd. apply NoDup_cons in Hnd as [Hk0 Hnd].
  apply Forall_cons in Hall as [H0 Hall].
  change (rows_at kv.1 (kv0.2 ++ concat recs.*2) = kv.2). rewrite rows_at_app.
  apply elem_of_cons in Hin as [->|Hin].
  - rewrite rows_at_same, rows_at_absent by done. apply app_nil_r.
  - rewrite (rows_at_other kv.1 kv0.1), IH; try done.
    intros Heq. apply Hk0. rewrite Heq. apply list_elem_of_fmap. by exists kv.
Qed.

Lemma batch_steps (t : nat) (ks : list nat) (rs : list record) :
  rs.*1 = (λ i, (t, i)) <$> ks → Forall (λ r : record, r.1.1 = t) rs.
Proof.
  revert ks. induction rs as [|r rs IH]; intros ks Hrs; [constructor|].
  destruct ks as [|k ks]; [done|]. cbn in Hrs. injection Hrs as Hr Hrs.
  constructor; [by rewrite Hr | by eapply IH].
Qed.

Lemma sound_batches (m : EvacuationModel) :
  sound m →
  NoDup (agent_records (data_collector m)).*1 ∧
  Forall (λ kv, Forall (λ r : record, r.1.1 = kv.1) kv.2) (agent_records (data_collector m)).
Proof.
  intros (_ & _ & _ & Hkeys & Hbatch & _). split; [rewrite Hkeys; apply NoDup_seq|].
  eapply Forall_impl; [exact Hbatch|]. intros kv [Hkv _]. by eapply batch_steps.
Qed.

Lemma Forall2_fmap_eq {A B} (R : A → B → Prop) (h : B → A) (l : list A) (k : list B) :
  Forall2 R l k → (∀ v y, y ∈ k → R v y → v = h y) → l = h <$> k.
Proof.
  induction 1 as [|v y l k Hvy _ IH]; intros Hh; [done|]. cbn. f_equal.
  - apply Hh; [apply list_elem_of_here | done].
  - apply IH. intros v' y' Hin. apply Hh. by apply list_elem_of_further.
Qed.

Lemma table_index (ks : list nat) (recs : list (nat * list record)) :
  Forall (λ kv, kv.2.*1 = (λ i, (kv.1, i)) <$> ks) recs →
  (concat recs.*2).*1 = t ← recs.*1; (λ i, (t, i)) <$> ks.
Proof.
  induction 1 as [|kv recs Hkv _ IH]; [done|].
  change ((kv.2 ++ concat recs.*2).*1 =
          ((λ i, (kv.1, i)) <$> ks) ++ (t ← recs.*1; (λ i, (t, i)) <$> ks)).
  rewrite fmap_app. f_equal; [exact Hkv | exact IH].
Qed.

Lemma Forall_concat_batches (P : record → Prop) (recs : list (nat * list record)) :
  Forall (λ kv, Forall P kv.2) recs → Forall P (concat recs.*2).
Proof.
  induction 1 as [|kv recs Hkv _ IH]; [constructor|].
  change (Forall P (kv.2 ++ concat recs.*2)). apply Forall_app. by split.
Qed.

Lemma length_product_index (ts ks : list nat) :
  length (t ← ts; (λ i, (t, i)) <$> ks) = length ts * length ks.
Proof.
  induction ts as [|t ts IH]; [done|].
  change (length (((λ i, (t, i)) <$> ks) ++ (t' ← ts; (λ i, (t', i)) <$> ks))
          = length (t :: ts) * length ks).
  rewrite length_app, length_fmap, IH. cbn. lia.
Qed.

(** X8: after any run that returns on a constructed model, the grid has
    an entry exactly for the nodes of the graph, and the entry of a node
    lists the agents standing on it, each once: it is a permutation of the
    identifiers of the agents whose position is that node. *)
Theorem run_keeps_grid_consistent (env : Env) (st : store) (a : Args)
    (m0 m : EvacuationModel) (n : Z) (df : DataFrame) :
  (EvacuationModel_init env st a).2 = Ok m0 →
  run n m0 = Ok (m, df) →
  (∀ p, p ∈ (graph_nodes (G m0)).*1 →
        ∃ l, grid m !! p = Some l ∧ l ≡ₚ occupants_of (agents (schedule m)) p) ∧
  (∀ p, p ∉ (graph_nodes (G m0)).*1 → grid m !! p = None).
Proof.
  intros Hinit Hrun.
  destruct (run_sound _ _ _ _ _ _ _ Hinit Hrun)
    as ((_ & Hgrid & Hdom & _) & HG & _).
  rewrite HG in Hdom. split.
  - intros p Hp. apply Hdom in Hp as [l Hl]. exists l. split; [done|]. by apply Hgrid.
  - intros p Hp. destruct (grid m !! p) as [l|] eqn:Hl; [|done].
    exfalso. apply Hp, Hdom. by exists l.
Qed.

(** X9: whatever the collaborator does, after a run that returns every
    agent stands on a node of the graph, and every position in the
    returned table is a node of the graph. *)
Theorem recorded_positions_are_nodes (env : Env) (st : store) (a : Args)
    (m0 m : EvacuationModel) (n : Z) (df : DataFrame) :
  (EvacuationModel_init env st a).2 = Ok m0 →
  run n m0 = Ok (m, df) →
  Forall (λ ka, pos ka.2 ∈ (graph_nodes (G m0)).*1) (agents (schedule m)) ∧
  Forall (λ r : record, r.2 ∈ (graph_nodes (G m0)).*1) df.
Proof.
  intros Hinit Hrun.
  destruct (run_sound _ _ _ _ _ _ _ Hinit Hrun)
    as ((Hags & _ & _ & _ & Hbatch & _) & HG & _ & _ & _ & _ & ->).
  rewrite HG in Hags, Hbatch. split.
  - eapply Forall_impl; [exact Hags|]. by intros ka [_ ?].
  - apply Forall_concat_batches.
    eapply Forall_impl; [exact Hbatch|]. by intros kv [_ ?].
Qed.

(** X10: the model-level series 'evacuated' that a run leaves has one
    value per step, and the value of step [t] is the number of rows of
    step [t] in the returned table whose position is the target. *)
Theorem evacuated_counts_rows_on_target (env : Env) (st : store) (a : Args)
    (m0 m : EvacuationModel) (n : Z) (df : DataFrame) :
  (EvacuationModel_init env st a).2 = Ok m0 →
  run n m0 = Ok (m, df) →
  model_vars (data_collector m) =
    (λ t, length (rows_on (target_node m0) (rows_at t df))) <$> seq 0 (Z.to_nat n).
Proof.
  intros Hinit Hrun.
  destruct (run_sound _ _ _ _ _ _ _ Hinit Hrun) as (Hs & _ & _ & Ht & _ & Hsteps & ->).
  destruct (sound_batches _ Hs) as [Hnd Hsteps_of].
  destruct Hs as (_ & _ & _ & Hkeys & _ & Hsync).
  rewrite <- Hsteps, <- Hkeys, <- list_fmap_compose, <- Ht.
  eapply Forall2_fmap_eq; [exact Hsync|].
  intros v kv Hkv ->. cbn. by rewrite rows_at_records.
Qed.

(** X11: the index of the table that a run returns on a constructed model
    is the product of the steps 0, ..., [steps - 1] with the agent
    identifiers 0, ..., [k - 1], sorted by step and then by identifier; the
    table has [steps * k] rows. *)
Theorem run_table_index (env : Env) (st : store) (a : Args)
    (m0 m : EvacuationModel) (n : Z) (df : DataFrame) :
  (EvacuationModel_init env st a).2 = Ok m0 →
  run n m0 = Ok (m, df) →
  df.*1 = (t ← seq 0 (Z.to_nat n);
           (λ i, (t, i)) <$> seq 0 (length (agents (schedule m0)))) ∧
  length df = Z.to_nat n * length (agents (schedule m0)).
Proof.
  intros Hinit Hrun.
  destruct (run_sound _ _ _ _ _ _ _ Hinit Hrun)
    as ((_ & _ & _ & Hkeys & Hbatch & _) & _ & _ & _ & Hk & Hsteps & ->).
  assert (Hindex : (concat (agent_records (data_collector m)).*2).*1 =
                   (t ← seq 0 (Z.to_nat n);
                    (λ i, (t, i)) <$> seq 0 (length (agents (schedule m0))))).
  { rewrite <- Hsteps, <- Hkeys, <- Hk. apply table_index.
    eapply Forall_impl; [exact Hbatch|]. by intros kv [? _]. }
  split; [done|].
  apply (f_equal length) in Hindex.
  by rewrite length_fmap, length_product_index, !length_seq in Hindex.
Qed.

(** X12: the collector is append-only across runs: the table returned by
    a run on a constructed model is a prefix of the table returned by any
    later run on the model it leaves, and so is the model-level series. *)
Theorem run_appends_to_table (env : Env) (st : store) (a : Args)
    (m0 m1 m2 : EvacuationModel) (n k : Z) (df1 df2 : DataFrame) :
  (EvacuationModel_init env st a).2 = Ok m0 →
  run n m0 = Ok (m1, df1) →
  run k m1 = Ok (m2, df2) →
  df1 `prefix_of` df2 ∧
  model_vars (data_collector m1) `prefix_of` model_vars (data_collector m2).
Proof.
  intros Hinit Hrun1 Hrun2.
  destruct (run_sound _ _ _ _ _ _ _ Hinit Hrun1) as (Hs & _ & _ & _ & _ & _ & ->).
  unfold run in Hrun2. apply bind_Ok_inv in Hrun2 as (m' & Hloop & [= -> <-]).
  apply step_loop_sound in Hloop as (_ & _ & _ & _ & _ & _ & [r Hr] & [v Hv]); [|done].
  split.
  - exists (concat r.*2). unfold get_agent_vars_dataframe.
    by rewrite Hr, fmap_app, concat_app.
  - by exists v.
Qed.

(** X13: a run changes neither the graph, nor the node frame, nor the
    target, nor the set of registered agents: the model it leaves has the
    agents of the constructed model, under the same keys, each under its
    own identifier. *)
Theorem run_keeps_network_target_and_agents (env : Env) (st : store) (a : Args)
    (m0 m : EvacuationModel) (n : Z) (df : DataFrame) :
  (EvacuationModel_init env st a).2 = Ok m0 →
  run n m0 = Ok (m, df) →
  G m = G m0 ∧ nodes m = nodes m0 ∧ target_node m = target_node m0 ∧
  (agents (schedule m)).*1 = (agents (schedule m0)).*1 ∧
  Forall (λ ka, unique_id ka.2 = ka.1) (agents (schedule m)).
Proof.
  intros Hinit Hrun.
  destruct (run_sound _ _ _ _ _ _ _ Hinit Hrun)
    as ((Hags & _) & HG & HN & Ht & Hk & _).
  destruct (EvacuationModel_init_fresh _ _ _ _ Hinit)
    as (locs & hz & _ & _ & _ & _ & _ & Hkeys & _).
  do 3 (split; [done|]). split.
  - rewrite Hk, Hkeys. by rewrite <- (length_fmap fst (agents (schedule m0))), Hkeys, length_seq.
  - eapply Forall_impl; [exact Hags|]. by intros ka [? _].
Qed.

(** ** Who is simulated, and where *)

Lemma geometry_xy_Forall2 (joined : list (Z * geom * Z)) (qs : list (coord * coord)) :
  geometry_xy joined = Ok qs →
  Forall2 (λ row xy, point_xy row.1.2 = Some xy) joined qs.
Proof.
  revert qs. induction joined as [|row joined IH]; cbn; intros qs H.
  - injection H as <-. constructor.
  - apply bind_Ok_inv in H as (xy & Hxy & H). apply getitem_Ok_inv in Hxy.
    apply bind_Ok_inv in H as (rest & Hrest & H). injection H as <-.
    constructor; [done | by apply IH].
Qed.

Lemma geometry_xy_Raise (joined : list (Z * geom * Z)) (row : Z * geom * Z) :
  row ∈ joined → point_xy row.1.2 = None → geometry_xy joined = Raise ValueError.
Proof.
  induction joined as [|row0 joined IH]; intros Hin Hnone; [by apply elem_of_nil in Hin|].
  cbn. destruct (point_xy row0.1.2) as [xy|] eqn:Hxy; cbn; [|done].
  apply elem_of_cons in Hin as [->|Hin]; [congruence|].
  by rewrite IH.
Qed.

(** The placement loop, row by row: the agent created for an entry of
    [node_idx] stands on the node that the index has at this entry and
    carries the route computed from there. *)
Lemma create_agents_placed (g : MultiDiGraph) (target : Z) (index : list Z)
    (node_idx : list nat) (i : nat) (s s' : RandomActivation) (gr gr' : gmap Z (list nat)) :
  create_agents g target index i node_idx s gr = Ok (s', gr') →
  (∀ k, k ∈ (agents s).*1 → k < i) →
  ∃ new, agents s' = agents s ++ new ∧
         Forall2 (λ idx ka, index !! idx = Some (pos ka.2) ∧
                            update_route g target (pos ka.2) nav_init = Ok (route ka.2))
           node_idx new.
Proof.
  revert i s gr. induction node_idx as [|idx node_idx IH]; intros i s gr; cbn.
  - intros [= <- <-] _. exists []. by rewrite app_nil_r.
  - intros H Hlt.
    apply bind_Ok_inv in H as (node & Hnode & H). apply getitem_Ok_inv in Hnode.
    apply bind_Ok_inv in H as (gr1 & Hgr1 & H).
    apply bind_Ok_inv in H as (rt & Hrt & H).
    assert (Hfresh : i ∉ (agents s).*1) by (intros Hi; apply Hlt in Hi; lia).
    apply IH in H as (new & Hag & Hall).
    + cbn in Hag. rewrite dict_set_keys_new in Hag by done.
      eexists (_ :: new). split; [by rewrite Hag, <- app_assoc|].
      by constructor.
    + cbn. rewrite dict_set_keys_new by done. rewrite fmap_app. cbn.
      intros k Hk. apply elem_of_app in Hk as [Hk|Hk].
      * apply Hlt in Hk. lia.
      * apply list_elem_of_singleton in Hk. lia.
Qed.

(** Every registered agent belongs to one row of the join, in order: it
    stands on the node nearest to the candidate of its row and carries the
    route computed from there to the target. *)
Lemma init_placement (env : Env) (st : store) (a : Args) (m : EvacuationModel)
    (locs hz : GeoDataFrame) :
  st !! arg_agent_locations a = Some locs →
  st !! arg_hazard a = Some hz →
  (EvacuationModel_init env st a).2 = Ok m →
  Forall2 (λ row ka, ∃ xy,
             point_xy row.1.2 = Some xy ∧
             (graph_nodes (G m)).*1 !! kd_query (graph_nodes (G m)).*2 xy = Some (pos ka.2) ∧
             update_route (G m) (target_node m) (pos ka.2) nav_init = Ok (route ka.2))
    (sjoin locs hz) (agents (schedule m)).
Proof.
  intros Hl Hh Hinit.
  apply EvacuationModel_init_Ok in Hinit
    as (g & locs' & hz' & qs & tr & [s gr] & Hg & Hl' & Hh' & Hqs & _ & Hsg & ->).
  cbn in Hl', Hh'. rewrite (EvacuationModel_init_store _ _ _ _ Hg) in Hl', Hh'.
  apply (f_equal (fmap rows)) in Hl', Hh'. rewrite !set_crs_rows in Hl', Hh'.
  rewrite Hl in Hl'. rewrite Hh in Hh'. cbn in Hl', Hh'.
  injection Hl' as Hl'. injection Hh' as Hh'.
  rewrite (sjoin_rows locs locs' hz hz') by done.
  apply geometry_xy_Forall2 in Hqs.
  apply create_agents_placed in Hsg as (new & Hnew & Hplaced);
    [|cbn; intros k Hk; by apply elem_of_nil in Hk].
  cbn in *. rewrite Hnew.
  unfold query in Hplaced. apply Forall2_fmap_l in Hplaced.
  eapply Forall2_trans; [|exact Hqs|exact Hplaced].
  intros row xy ka Hxy [Hidx Hroute]. by exists xy.
Qed.

(** X1: the constructor registers one agent for every pair of a candidate
    and a hazard polygon that intersect: the number of agents is the sum,
    over the candidates, of the number of polygons each intersects. *)
Theorem one_agent_per_intersecting_pair (env : Env) (st : store) (a : Args)
    (m : EvacuationModel) (locs hz : GeoDataFrame) :
  st !! arg_agent_locations a = Some locs →
  st !! arg_hazard a = Some hz →
  (EvacuationModel_init env st a).2 = Ok m →
  length (agents (schedule m)) =
    sum_list ((λ c, length (List.filter (λ q, intersects c.2 q.2) (rows hz))) <$> rows locs).
Proof.
  intros Hl Hh Hinit.
  rewrite (agents_count_is_join_size _ _ _ _ _ _ Hl Hh Hinit), sjoin_unfold.
  induction (rows locs) as [|c cs IH]; [done|].
  cbn. by rewrite length_app, length_fmap, IH.
Qed.


Lemma sjoin_elem (locs hz : GeoDataFrame) (row : Z * geom * Z) :
  row ∈ sjoin locs hz ↔
  (row.1.1, row.1.2) ∈ rows locs ∧
  ∃ q, (row.2, q) ∈ rows hz ∧ intersects row.1.2 q = true.
Proof.
  rewrite sjoin_unfold. rewrite list_elem_of_In, in_concat. split.
  - intros (rs & Hrs & Hin). apply in_map_iff in Hrs as (c & <- & Hc).
    apply in_map_iff in Hin as (p & <- & Hp). apply filter_In in Hp as [Hp Hi].
    cbn. split; [destruct c; by apply list_elem_of_In|].
    exists p.2. split; [destruct p; by apply list_elem_of_In | done].
  - intros [Hc (q & Hq & Hi)]. eexists. split.
    + apply in_map_iff. eexists. split; [done|]. apply list_elem_of_In, Hc.
    + apply in_map_iff. exists (row.2, q). cbn. split; [by destruct row as [[??]?]|].
      apply filter_In. split; [by apply list_elem_of_In | done].
Qed.

Lemma candidates_at_risk_elem (locs hz : GeoDataFrame) (c : Z * geom) :
  c ∈ candidates_at_risk locs hz ↔
  c ∈ rows locs ∧ ∃ q, q ∈ rows hz ∧ intersects c.2 q.2 = true.
Proof.
  unfold candidates_at_risk, at_risk.
  rewrite list_elem_of_In, filter_In, existsb_exists, <- list_elem_of_In.
  by setoid_rewrite <- list_elem_of_In.
Qed.

(** X4: every registered agent stands on the node nearest to a candidate
    at risk, and every candidate at risk has an agent on the node nearest
    to it; a candidate outside all hazard polygons has none of its own. *)
Theorem agents_come_from_candidates_at_risk (env : Env) (st : store) (a : Args)
    (m : EvacuationModel) (locs hz : GeoDataFrame) :
  st !! arg_agent_locations a = Some locs →
  st !! arg_hazard a = Some hz →
  (EvacuationModel_init env st a).2 = Ok m →
  let nearest_node xy := (graph_nodes (G m)).*1 !! kd_query (graph_nodes (G m)).*2 xy in
  (∀ ka, ka ∈ agents (schedule m) →
     ∃ c xy, c ∈ candidates_at_risk locs hz ∧ point_xy c.2 = Some xy ∧
             nearest_node xy = Some (pos ka.2)) ∧
  (∀ c, c ∈ candidates_at_risk locs hz →
     ∃ ka xy, ka ∈ agents (schedule m) ∧ point_xy c.2 = Some xy ∧
              nearest_node xy = Some (pos ka.2)).
Proof.
  intros Hl Hh Hinit nearest_node.
  pose proof (init_placement _ _ _ _ _ _ Hl Hh Hinit) as Hplaced. split.
  - intros ka Hka.
    destruct (Forall2_elem_of_r _ _ _ _ Hplaced Hka) as (row & Hrow & xy & Hxy & Hnode & _).
    apply sjoin_elem in Hrow as [Hc (q & Hq & Hi)].
    exists (row.1.1, row.1.2), xy. split; [|done].
    apply candidates_at_risk_elem. split; [done|]. by exists (row.2, q).
  - intros c Hc. apply candidates_at_risk_elem in Hc as [Hc (q & Hq & Hi)].
    assert (Hrow : (c.1, c.2, q.1) ∈ sjoin locs hz).
    { apply sjoin_elem. cbn. split; [by destruct c|]. exists q.2. by destruct q. }
    apply list_elem_of_lookup in Hrow as [i Hi'].
    destruct (Forall2_lookup_l _ _ _ _ _ Hplaced Hi') as (ka & Hka & xy & Hxy & Hnode & _).
    exists ka, xy. split; [by eapply list_elem_of_lookup_2 | done].
Qed.

Lemma choice_elem (r r' : rng) (seq : list Z) (x : Z) :
  choice r seq = Ok (x, r') → x ∈ seq.
Proof.
  unfold choice. destruct seq as [|z seq]; [done|].
  destruct (randbelow r (length (z :: seq))) as [i r1].
  intros H. apply bind_Ok_inv in H as (y & Hy & [= -> _]).
  apply getitem_Ok_inv in Hy. by eapply list_elem_of_lookup_2.
Qed.

(** X5: a target that the constructor draws itself is a node of the
    graph, and the grid has an entry for it: the 'evacuated' reporter finds
    it at every collection. *)
Theorem drawn_target_is_a_node (env : Env) (st : store) (a : Args) (m : EvacuationModel) :
  arg_target_node a = None →
  (EvacuationModel_init env st a).2 = Ok m →
  target_node m ∈ (graph_nodes (G m)).*1 ∧ is_Ok (collect m).
Proof.
  intros Hnone Hinit.
  destruct (EvacuationModel_init_sound _ _ _ _ Hinit) as (_ & _ & Hdom & _).
  assert (Ht : target_node m ∈ (graph_nodes (G m)).*1).
  { apply EvacuationModel_init_Ok in Hinit
      as (g & locs & hz & qs & [t r'] & sg & _ & _ & _ & _ & Htr & _ & ->).
    rewrite Hnone in Htr. cbn. by eapply choice_elem. }
  split; [done|]. apply Hdom in Ht as [occ Hocc].
  unfold collect. rewrite Hocc. cbn. by eexists.
Qed.

(** X6: a candidate at risk whose geometry is not a point makes the
    constructor raise [ValueError], once the network has loaded; only the
    candidates at risk are looked at. *)
Theorem non_point_candidate_at_risk_raises (env : Env) (st : store) (a : Args)
    (g : MultiDiGraph) (locs hz : GeoDataFrame) (c : Z * geom) :
  graph_from_file env (arg_osm_file a) = Some g →
  st !! arg_agent_locations a = Some locs →
  st !! arg_hazard a = Some hz →
  c ∈ candidates_at_risk locs hz →
  point_xy c.2 = None →
  (EvacuationModel_init env st a).2 = Raise ValueError.
Proof.
  intros Hg Hl Hh Hc Hnone. unfold EvacuationModel_init. rewrite Hg. cbn -[sjoin].
  destruct (set_crs_twice_lookup (arg_hazard a) (arg_agent_locations a) _ (graph_crs g) _ _ Hl)
    as (locs' & -> & Hrl).
  destruct (set_crs_twice_lookup (arg_hazard a) (arg_agent_locations a) _ (graph_crs g) _ _ Hh)
    as (hz' & -> & Hrh).
  cbn -[sjoin]. rewrite (sjoin_rows locs' locs hz' hz Hrl Hrh).
  apply candidates_at_risk_elem in Hc as [Hc (q & Hq & Hi)].
  rewrite (geometry_xy_Raise _ (c.1, c.2, q.1)); [done| |done].
  apply sjoin_elem. cbn. split; [by destruct c|]. exists q.2. by destruct q.
Qed.

(** X7: in a freshly constructed model the grid lists, on every node of
    the graph, exactly the agents placed on it, in the order of their
    identifiers, and has no other entry. *)
Theorem init_grid_lists_agents_in_order (env : Env) (st : store) (a : Args)
    (m : EvacuationModel) :
  (EvacuationModel_init env st a).2 = Ok m →
  ∀ p, grid m !! p =
       if decide (p ∈ (graph_nodes (G m)).*1)
       then Some (occupants_of (agents (schedule m)) p)
       else None.
Proof.
  intros Hinit p.
  destruct (EvacuationModel_init_sound _ _ _ _ Hinit) as (_ & _ & Hdom & _).
  apply EvacuationModel_init_Ok in Hinit
    as (g & _ & _ & qs & tr & [s gr] & _ & _ & _ & _ & _ & Hsg & ->).
  cbn in *.
  assert (Hocc : ∀ p l, gr !! p = Some l → l = occupants_of (agents s) p).
  { eapply create_agents_occupants; [exact Hsg | |].
    - intros k Hk. by apply elem_of_nil in Hk.
    - intros p' l' Hl'. by apply NetworkGrid_init_empty in Hl'. }
  case_decide as Hp.
  - apply Hdom in Hp as [l Hl]. by rewrite Hl, (Hocc _ _ Hl).
  - destruct (gr !! p) as [l|] eqn:Hl; [|done]. exfalso. apply Hp, Hdom. by exists l.
Qed.

(** ** Rendering *)










(** ** Seeding *)


(** Without a seed among the keyword arguments the generator is the one
    seeded from the clock, whatever was passed by position. *)
Lemma positional_seed_uses_clock (env : Env) (a : Args) :
  arg_seed_passing a = Positional →
  Model_new env a = Random_of_clock (time_time env).
Proof. intros Hp. unfold Model_new. by rewrite Hp. Qed.


End Properties.

(** * The scenario, evaluated *)

Import Scenario.

(** The scenario of the specification: three candidates, two of them in
    the hazard, give two agents, on A and on B. *)
Lemma village_built :
  (EvacuationModel_init (env_at 0) (store_of flood homes) (call (Some 4%Z) None Keyword)).2
  = Ok village.
Proof. reflexivity. Qed.

(** C1: one candidate inside two overlapping hazard polygons.  One
    candidate is at risk, and the constructor registers two agents for it,
    both on node A. *)
Theorem overlapping_hazard_duplicates_agent :
  length (candidates_at_risk one_home flood_overlapping) = 1 ∧
  ∃ m, (EvacuationModel_init (env_at 0) (store_of flood_overlapping one_home)
          (call (Some 4%Z) None Keyword)).2 = Ok m ∧
       length (agents (schedule m)) = 2 ∧
       (λ ka, pos ka.2) <$> agents (schedule m) = [1%Z; 1%Z].
Proof. split; [reflexivity|]. eexists. split; [reflexivity|]. split; reflexivity. Qed.

(** C2, refuted as stated: the only candidate lies outside the hazard, and
    the constructor raises nothing. *)
Lemma empty_filter_is_not_signalled :
  ¬ (candidates_at_risk far_home flood = [] →
     raises (EvacuationModel_init (env_at 0) (store_of flood far_home)
               (call (Some 4%Z) None Keyword)).2).
Proof. intros H. destruct (H eq_refl) as [e He]. discriminate He. Qed.

(** C3, refuted as stated: 99 is no node of the street, and the constructor
    raises nothing. *)
Lemma invalid_target_is_not_rejected :
  ¬ (99%Z ∉ (graph_nodes street).*1 →
     raises (EvacuationModel_init (env_at 0) (store_of flood far_home)
               (call (Some 99%Z) None Keyword)).2).
Proof.
  intros H. destruct H as [e He]; [|discriminate He].
  intros Hin. apply (bool_decide_pack _) in Hin. exact Hin.
Qed.

(** C4, refuted as stated: the hazard carries another reference system
    than the network; the constructor neither raises nor changes a
    coordinate, and joins the geometries as they were supplied. *)
Lemma mismatched_crs_is_joined_unchanged :
  ¬ (crs flood_osgb ≠ graph_crs street →
     let r := EvacuationModel_init (env_at 0) (store_of flood_osgb homes)
                (call (Some 4%Z) None Keyword) in
     raises r.2 ∨ ∃ hz, r.1 !! 1%positive = Some hz ∧ rows hz ≠ rows flood_osgb).
Proof.
  intros H. destruct H as [[e He]|(hz & Hhz & Hrows)].
  - discriminate.
  - discriminate He.
  - injection Hhz as <-. by apply Hrows.
Qed.

(** C5, refuted as stated: after two steps the row of agent 0 under step
    index 1 holds node B, where the agent stands after one movement; after
    [1 - 1 = 0] movements it stands on A. *)
Lemma row_at_step_1_is_after_one_movement :
  ¬ (∀ m df, run 2 village = Ok (m, df) →
       ∀ t i p, (t, i, p) ∈ df →
         ∃ a0 at_t, dict_get i (agents (schedule village)) = Some a0 ∧
                    advance_n (G village) (target_node village) (t - 1) a0 = Ok at_t ∧
                    pos at_t = p).
Proof.
  intros H.
  destruct (H _ _ eq_refl 1 0 2%Z) as (a0 & at_t & Hget & Hadv & Hpos).
  - apply (bool_decide_unpack _). exact I.
  - injection Hget as <-. injection Hadv as <-. discriminate Hpos.
Qed.

(** C7: the same call, with seed 42 passed by position and no target, at
    two readings of the clock.  The generator is seeded from the clock, the
    drawn targets differ and so do the tables. *)
Theorem positional_seed_is_not_reproducible :
  series_at 0 (call None (Some 42%Z) Positional) 2
    = Ok [(0, 0, 1%Z); (0, 1, 2%Z); (1, 0, 1%Z); (1, 1, 2%Z)] ∧
  series_at 1 (call None (Some 42%Z) Positional) 2
    = Ok [(0, 0, 1%Z); (0, 1, 2%Z); (1, 0, 2%Z); (1, 1, 2%Z)] ∧
  series_at 0 (call None (Some 42%Z) Positional) 2
    ≠ series_at 1 (call None (Some 42%Z) Positional) 2.
Proof.
  assert (H0 : series_at 0 (call None (Some 42%Z) Positional) 2
               = Ok [(0, 0, 1%Z); (0, 1, 2%Z); (1, 0, 1%Z); (1, 1, 2%Z)]) by reflexivity.
  assert (H1 : series_at 1 (call None (Some 42%Z) Positional) 2
               = Ok [(0, 0, 1%Z); (0, 1, 2%Z); (1, 0, 2%Z); (1, 1, 2%Z)]) by reflexivity.
  split; [exact H0|]. split; [exact H1|]. rewrite H0, H1. discriminate.
Qed.

(** ** The theorems at the scenario *)

Lemma init_overwrites_crs_in_place_witness :
  ∃ hz, (EvacuationModel_init (env_at 0) (store_of flood_osgb homes)
           (call (Some 4%Z) None Keyword)).1 !! 1%positive = Some hz ∧
        crs hz = Some "epsg:4326"%string.
Proof.
  destruct (init_overwrites_crs_in_place (env_at 0) (store_of flood_osgb homes)
              (EvacuationModel_init (env_at 0) (store_of flood_osgb homes)
                 (call (Some 4%Z) None Keyword)).1
              (call (Some 4%Z) None Keyword) village eq_refl)
    as (_ & _ & (hz & locs & Hhz & Hcrs & _) & _).
  exists hz. split; [exact Hhz | exact Hcrs].
Defined.

Lemma init_relabels_without_check_witness :
  (EvacuationModel_init (env_at 0) (store_of flood homes) (call (Some 4%Z) None Keyword)).2
  = (EvacuationModel_init (env_at 0) (store_of flood_osgb homes) (call (Some 4%Z) None Keyword)).2.
Proof.
  apply (init_relabels_without_check (env_at 0) (store_of flood homes) (store_of flood_osgb homes)).
  intros l. unfold store_of.
  destruct (decide (l = 1%positive)) as [->|H1]; [reflexivity|].
  destruct (decide (l = 2%positive)) as [->|H2]; [reflexivity|].
  by rewrite !lookup_insert_ne.
Defined.

Lemma init_without_candidates_succeeds_witness :
  ∃ m, (EvacuationModel_init (env_at 0) (store_of flood far_home)
          (call (Some 4%Z) None Keyword)).2 = Ok m ∧
       agents (schedule m) = [].
Proof.
  apply (init_without_candidates_succeeds (env_at 0) (store_of flood far_home)
           (call (Some 4%Z) None Keyword) street far_home flood);
    [reflexivity | reflexivity | reflexivity | reflexivity |].
  left. eexists. reflexivity.
Defined.

Lemma invalid_target_surfaces_at_first_step_witness :
  is_Ok (EvacuationModel_init (env_at 0) (store_of flood far_home)
           (call (Some 99%Z) None Keyword)).2 ∧
  target_node deserted = 99%Z ∧ step deserted = Raise KeyError ∧
  run 1 deserted = Raise KeyError.
Proof.
  destruct (invalid_target_surfaces_at_first_step (env_at 0) (store_of flood far_home)
              (call (Some 99%Z) None Keyword) street 99%Z) as [Hbuilt Hstep];
    [reflexivity | reflexivity | |].
  - intros Hin. apply (bool_decide_pack _) in Hin. exact Hin.
  - split.
    + apply (Hbuilt far_home flood); reflexivity.
    + destruct (Hstep deserted eq_refl) as (Ht & Hs & Hrun).
      split; [exact Ht|]. split; [exact Hs|]. apply Hrun. lia.
Defined.

Lemma village_run_2 : run 2 village = Ok (village_after 2, village_table 2).
Proof. reflexivity. Qed.

Lemma step_records_then_activates_witness :
  1 < Z.to_nat 2 ∧
  ∃ a0 at_t, dict_get 0 (agents (schedule village)) = Some a0 ∧
             advance_n (G village) (target_node village) 1 a0 = Ok at_t ∧
             pos at_t = 2%Z.
Proof.
  apply (proj2 (step_records_then_activates (env_at 0) (store_of flood homes)
                  (call (Some 4%Z) None Keyword) village (village_after 2) 2
                  (village_table 2) village_built village_run_2) 1 0 2%Z).
  apply list_elem_of_further, list_elem_of_further, list_elem_of_here.
Defined.

Lemma walker_well_behaved : well_behaved street 4 on_street.
Proof.
  intros a [Hpos Hroute]. unfold advance. cbn. unfold walk_step.
  destruct (route a) as [|q rt] eqn:Hrt; cbn.
  - eexists. split; [done|]. cbn. split; [|done]. split; [done|]. cbn. constructor.
  - apply Forall_cons in Hroute as [Hq Hrest].
    eexists. split; [done|]. cbn. split; [|done]. by split.
Qed.

Lemma run_records_every_agent_each_step_witness :
  steps_of 1 (village_table 2) = seq 0 (Z.to_nat 2) ∧
  ∃ m df, run 2 village = Ok (m, df).
Proof.
  destruct (run_records_every_agent_each_step (env_at 0) (store_of flood homes)
              (call (Some 4%Z) None Keyword) village 2 village_built)
    as [Hrows Hreturns]; [lia|].
  split.
  - apply (proj1 (proj2 (proj2 (proj2 (proj2
             (Hrows (village_after 2) (village_table 2) village_run_2)))))).
    apply list_elem_of_further, list_elem_of_here.
  - apply (Hreturns on_street).
    + apply (bool_decide_unpack _). exact I.
    + exact walker_well_behaved.
    + apply (bool_decide_unpack _). exact I.
Defined.

Lemma run_zero_on_fresh_model_witness : run 0 village = Ok (village, []).
Proof.
  apply (run_zero_on_fresh_model (env_at 0) (store_of flood homes)
           (call (Some 4%Z) None Keyword) village).
  reflexivity.
Defined.

Lemma run_additive_witness :
  run 1 village ≫= (λ r, run 2 r.1) = run (1 + 2) village.
Proof. apply (run_additive 1 2 village); lia. Defined.

(** ** Further properties at the scenario *)


Lemma village_ran_2 : run 2 village = Ok (ran village 2).
Proof. reflexivity. Qed.


Lemma one_agent_per_intersecting_pair_witness :
  length (agents (schedule village)) =
    sum_list ((λ c, length (List.filter (λ q, intersects c.2 q.2) (rows flood))) <$> rows homes).
Proof.
  apply (one_agent_per_intersecting_pair (env_at 0) (store_of flood homes)
           (call (Some 4%Z) None Keyword) village homes flood);
    reflexivity.
Defined.

Lemma agents_count_disjoint_hazard_witness :
  length (agents (schedule village)) = length (candidates_at_risk homes flood).
Proof.
  apply (agents_count_disjoint_hazard (env_at 0) (store_of flood homes)
           (call (Some 4%Z) None Keyword) village homes flood);
    [reflexivity | reflexivity | | reflexivity].
  intros c Hc. etransitivity; [apply List.filter_length_le|]. cbn. lia.
Defined.


Lemma agents_come_from_candidates_at_risk_witness :
  ∃ ka xy, ka ∈ agents (schedule village) ∧ point_xy (Point 9 1) = Some xy ∧
           (graph_nodes street).*1 !! kd_query (graph_nodes street).*2 xy = Some (pos ka.2).
Proof.
  apply (proj2 (agents_come_from_candidates_at_risk (env_at 0) (store_of flood homes)
                  (call (Some 4%Z) None Keyword) village homes flood
                  eq_refl eq_refl village_built) (1%Z, Point 9 1)).
  change ((1%Z, Point 9 1) ∈ [(0%Z, Point 1 1); (1%Z, Point 9 1)]).
  apply list_elem_of_further, list_elem_of_here.
Defined.

Lemma drawn_target_is_a_node_witness :
  ∃ m, (EvacuationModel_init (env_at 0) (store_of flood homes)
          (call None (Some 42%Z) Keyword)).2 = Ok m ∧
       target_node m ∈ (graph_nodes (G m)).*1 ∧ is_Ok (collect m).
Proof.
  eexists. split; [reflexivity|].
  apply (drawn_target_is_a_node (env_at 0) (store_of flood homes)
           (call None (Some 42%Z) Keyword)); reflexivity.
Defined.

Lemma non_point_candidate_at_risk_raises_witness :
  (EvacuationModel_init (env_at 0) (store_of flood homes_with_block)
     (call (Some 4%Z) None Keyword)).2 = Raise ValueError.
Proof.
  apply (non_point_candidate_at_risk_raises (env_at 0) (store_of flood homes_with_block)
           (call (Some 4%Z) None Keyword) street homes_with_block flood (1%Z, Box 0 0 2 2));
    [reflexivity | reflexivity | reflexivity | | reflexivity].
  change ((1%Z, Box 0 0 2 2) ∈ [(0%Z, Point 1 1); (1%Z, Box 0 0 2 2)]).
  apply list_elem_of_further, list_elem_of_here.
Defined.

Lemma init_grid_lists_agents_in_order_witness :
  grid village !! 2%Z =
    if decide (2%Z ∈ (graph_nodes (G village)).*1)
    then Some (occupants_of (agents (schedule village)) 2)
    else None.
Proof.
  apply (init_grid_lists_agents_in_order (env_at 0) (store_of flood homes)
           (call (Some 4%Z) None Keyword) village village_built 2%Z).
Defined.

Lemma run_keeps_grid_consistent_witness :
  ∃ l, grid (ran village 2).1 !! 3%Z = Some l ∧
       l ≡ₚ occupants_of (agents (schedule (ran village 2).1)) 3.
Proof.
  apply (proj1 (run_keeps_grid_consistent (env_at 0) (store_of flood homes)
                  (call (Some 4%Z) None Keyword) village (ran village 2).1 2
                  (ran village 2).2 village_built village_ran_2) 3%Z).
  apply (bool_decide_unpack _). exact I.
Defined.

Lemma recorded_positions_are_nodes_witness :
  Forall (λ r : record, r.2 ∈ (graph_nodes (G village)).*1) (ran village 2).2.
Proof.
  apply (proj2 (recorded_positions_are_nodes (env_at 0) (store_of flood homes)
                  (call (Some 4%Z) None Keyword) village (ran village 2).1 2
                  (ran village 2).2 village_built village_ran_2)).
Defined.

Lemma evacuated_counts_rows_on_target_witness :
  model_vars (data_collector (ran village 2).1) =
    (λ t, length (rows_on (target_node village) (rows_at t (ran village 2).2)))
      <$> seq 0 (Z.to_nat 2).
Proof.
  apply (evacuated_counts_rows_on_target (env_at 0) (store_of flood homes)
           (call (Some 4%Z) None Keyword) village (ran village 2).1 2
           (ran village 2).2 village_built village_ran_2).
Defined.

Lemma run_table_index_witness :
  length (ran village 2).2 = Z.to_nat 2 * length (agents (schedule village)).
Proof.
  apply (proj2 (run_table_index (env_at 0) (store_of flood homes)
                  (call (Some 4%Z) None Keyword) village (ran village 2).1 2
                  (ran village 2).2 village_built village_ran_2)).
Defined.

Lemma run_appends_to_table_witness :
  (ran village 2).2 `prefix_of` (ran (ran village 2).1 1).2.
Proof.
  apply (proj1 (run_appends_to_table (env_at 0) (store_of flood homes)
                  (call (Some 4%Z) None Keyword) village (ran village 2).1
                  (ran (ran village 2).1 1).1 2 1 (ran village 2).2
                  (ran (ran village 2).1 1).2 village_built village_ran_2 eq_refl)).
Defined.

Lemma run_keeps_network_target_and_agents_witness :
  G (ran village 2).1 = G village ∧ nodes (ran village 2).1 = nodes village ∧
  target_node (ran village 2).1 = target_node village ∧
  (agents (schedule (ran village 2).1)).*1 = (agents (schedule village)).*1 ∧
  Forall (λ ka, unique_id ka.2 = ka.1) (agents (schedule (ran village 2).1)).
Proof.
  apply (run_keeps_network_target_and_agents (env_at 0) (store_of flood homes)
           (call (Some 4%Z) None Keyword) village (ran village 2).1 2
           (ran village 2).2 village_built village_ran_2).
Defined.



